(** * NewsBreeze: a shallow embedding of the acquisition pipeline

    The development follows the three utility modules of the repository:

    - [utils/news_fetcher.py]   -> [Module NewsFetcher]
    - [utils/summarizer.py]     -> [Module Summarizer]
    - [utils/voice_generator.py]-> [Module VoiceGenerator]

    Third-party packages ([requests], [feedparser], [bs4], [transformers],
    [TTS], [pydub]) are not part of the repository.  Their results enter the
    model as Section variables (oracles): each call either returns a value or
    raises.  What the repository's own code does with those results is
    translated statement by statement.  Calls to [logger] have no influence on
    any returned value and are left out, except in [Summarizer], where the
    calls into the model backend are recorded in a trace. *)

From Stdlib Require Import ZArith Lia Ascii.
From stdpp Require Import base option list strings gmap.

Set Warnings "-register-all".

(** ** Python primitives *)

Module Py.

(** The outcome of evaluating a Python expression: a value, or a raised
    exception (identified by its class name). *)
Inductive result (A : Type) : Type :=
| Ok (a : A)
| Raise (e : string).
Arguments Ok {A} a.
Arguments Raise {A} e.

(** Sequencing: an exception raised by the first statement skips the
    rest.  The instances give [x ← m; k] and [mret]. *)
Global Instance result_ret : MRet result := λ A a, Ok a.
Global Instance result_bind : MBind result := λ A B k m,
  match m with
  | Ok a => k a
  | Raise e => Raise e
  end.

(** [try: body  except Exception as e: handler e] where both sides end in
    a [return]. *)
Definition try_except {A} (body : result A) (handler : string → A) : A :=
  match body with
  | Ok a => a
  | Raise e => handler e
  end.

(** Statements that also read and write a store [S] (module globals, the
    file system).  What was written before an exception stays written. *)
Definition io (S A : Type) : Type := S → result A * S.

Global Instance io_ret {S} : MRet (io S) := λ A a st, (Ok a, st).
Global Instance io_bind {S} : MBind (io S) := λ A B k m st,
  match m st with
  | (Ok a, st') => k a st'
  | (Raise e, st') => (Raise e, st')
  end.

(** An expression without effect on the store, used as a statement. *)
Definition lift {S A} (r : result A) : io S A := λ st, (r, st).

(** The call of a function of this repository that never raises. *)
Definition call_total {S A} (f : S → A * S) : io S A :=
  λ st, let '(a, st') := f st in (Ok a, st').

Definition io_try {S A} (body : io S A) (handler : string → io S A) : io S A :=
  λ st,
    match body st with
    | (Ok a, st') => (Ok a, st')
    | (Raise e, st') => handler e st'
    end.

(** A function whose body is one [try] with a handler that returns. *)
Definition io_try_return {S A} (body : io S A) (handler : string → S → A * S)
  : S → A * S :=
  λ st,
    match body st with
    | (Ok a, st') => (a, st')
    | (Raise e, st') => handler e st'
    end.

(** [len(s)] for a [str].  Characters are code points; the model keeps
    the code points below 256. *)
Definition len (s : string) : Z := Z.of_nat (String.length s).

(** Truth value of a [str]: [bool(s)] is [s != '']. *)
Definition truthy (s : string) : bool :=
  match s with
  | EmptyString => false
  | String _ _ => true
  end.

(** Truth value of an optional [str] ([None] and [''] are false). *)
Definition truthy_opt (o : option string) : bool :=
  match o with
  | Some s => truthy s
  | None => false
  end.

Fixpoint take (n : nat) (s : string) : string :=
  match n, s with
  | S n', String c s' => String c (take n' s')
  | _, _ => EmptyString
  end.

(** The slice [s[:stop]].  A negative [stop] counts from the end. *)
Definition slice_to (s : string) (stop : Z) : string :=
  if (stop <? 0)%Z
  then take (Z.to_nat (len s + stop)) s
  else take (Z.to_nat stop) s.

(** [str.isspace] on one character, for code points below 256. *)
Definition isspace (c : ascii) : bool :=
  let n := nat_of_ascii c in
  ((9 <=? n) && (n <=? 13)) || ((28 <=? n) && (n <=? 32))
  || (n =? 133) || (n =? 160).

Fixpoint lstrip (s : string) : string :=
  match s with
  | EmptyString => EmptyString
  | String c s' => if isspace c then lstrip s' else s
  end.

Fixpoint rstrip (s : string) : string :=
  match s with
  | EmptyString => EmptyString
  | String c s' =>
      match rstrip s' with
      | EmptyString => if isspace c then EmptyString else String c EmptyString
      | r => String c r
      end
  end.

(** [s.strip()] *)
Definition strip (s : string) : string := rstrip (lstrip s).

(** [sep.join(parts)] *)
Fixpoint join (sep : string) (parts : list string) : string :=
  match parts with
  | [] => EmptyString
  | [p] => p
  | p :: ps => p +:+ sep +:+ join sep ps
  end.

(** [s.split()]: maximal runs of non-whitespace characters.  [word] is the
    run being read, most recent character first. *)
Definition flush (word : string) : list string :=
  match word with
  | EmptyString => []
  | _ => [String.rev word]
  end.

Fixpoint split_from (word : string) (s : string) : list string :=
  match s with
  | EmptyString => flush word
  | String c s' =>
      if isspace c then flush word ++ split_from EmptyString s'
      else split_from (String c word) s'
  end.

Definition split (s : string) : list string := split_from EmptyString s.

(** [d.get(key, dflt)] on a dictionary with [str] keys and values. *)
Definition dict_get (d : gmap string string) (key dflt : string) : string :=
  default dflt (d !! key).

(** [d[key]], which raises [KeyError] on a missing key. *)
Definition getitem (d : gmap string string) (key : string) : result string :=
  match d !! key with
  | Some v => Ok v
  | None => Raise "KeyError"
  end.

End Py.

Import Py.

(** Does character [c] occur in [s]? *)
Fixpoint occurs (c : ascii) (s : string) : bool :=
  match s with
  | EmptyString => false
  | String d s' => if decide (c = d) then true else occurs c s'
  end.

(** ** The parsed document of [bs4] *)

Module Bs4.

(** A parsed page: text strings and elements.  Of an element the code only
    reads the tag name and the [class] attribute. *)
Inductive node : Type :=
| NavigableString (s : string)
| Tag (name : string) (class_ : list string) (contents : list node).

(** The [BeautifulSoup] object: the top-level nodes of the document. *)
Definition soup : Type := list node.

(** All text strings below a node, in document order. *)
Fixpoint strings (n : node) : list string :=
  match n with
  | NavigableString s => [s]
  | Tag _ _ cs =>
      (fix below (l : list node) : list string :=
         match l with
         | [] => []
         | c :: l' => strings c ++ below l'
         end) cs
  end.

Definition soup_strings (sp : soup) : list string := flat_map strings sp.

(** All elements at or below a node, in document order. *)
Fixpoint tags (n : node) : list node :=
  match n with
  | NavigableString _ => []
  | Tag _ _ cs =>
      n :: (fix below (l : list node) : list node :=
              match l with
              | [] => []
              | c :: l' => tags c ++ below l'
              end) cs
  end.

Definition descendants (sp : soup) : list node := flat_map tags sp.

Definition name_of (n : node) : string :=
  match n with
  | NavigableString _ => ""
  | Tag nm _ _ => nm
  end.

Definition classes_of (n : node) : list string :=
  match n with
  | NavigableString _ => []
  | Tag _ cl _ => cl
  end.

(** [soup.find(name)]: the first element with that tag name, or [None]. *)
Definition find (name : string) (sp : soup) : option node :=
  head (filter (λ t, name_of t = name) (descendants sp)).

(** The [class_=[...]] filter: some class of the element is listed. *)
Definition has_class (wanted : list string) (t : node) : Prop :=
  Exists (λ c, c ∈ wanted) (classes_of t).

Global Instance has_class_dec wanted t : Decision (has_class wanted t).
Proof. unfold has_class. apply _. Defined.

(** [soup.find_all(name, class_=wanted)] *)
Definition find_all (name : string) (wanted : list string) (sp : soup)
  : list node :=
  filter (λ t, name_of t = name ∧ has_class wanted t) (descendants sp).

(** [get_text(separator=sep, strip=True)] over a sequence of strings: each
    one stripped, the empty ones dropped, the rest joined. *)
Definition text_of (sep : string) (ss : list string) : string :=
  join sep (filter (λ s, truthy s = true) (strip <$> ss)).

Definition get_text (sep : string) (n : node) : string :=
  text_of sep (strings n).

Definition soup_get_text (sep : string) (sp : soup) : string :=
  text_of sep (soup_strings sp).

End Bs4.

Import Bs4.

(** ** [utils/news_fetcher.py] *)

Module NewsFetcher.

(** What the code reads of a [requests.Response]. *)
Record response : Type := { status_code : Z; text : string }.

(** [response.raise_for_status()]: [HTTPError] for a 4xx or 5xx status. *)
Definition raise_for_status (r : response) : result unit :=
  if ((400 <=? status_code r) && (status_code r <? 600))%Z
  then Raise "HTTPError" else Ok ().

(** What the code reads of the value of [feedparser.parse]: entries are
    dictionaries with optional fields. *)
Record feed : Type :=
  { bozo_exception : option string; entries : list (gmap string string) }.

Definition content_classes : list string :=
  ["content"; "article-content"; "story-content"; "entry-content"].

Definition content_not_available : string := "Content not available".

(** The loop over the candidate [div]s (lines 109-112): [content] is
    assigned at every iteration, and the loop leaves at the first
    non-empty text. *)
Fixpoint div_loop (divs : list node) (content : string) : string :=
  match divs with
  | [] => content
  | div :: rest =>
      let content := get_text " " div in
      if truthy content then content else div_loop rest content
  end.

(** Lines 94-116 of [fetch_article_content]: the search for the main
    content of a parsed page.  [soup.body] is [soup.find('body')]; calling
    [get_text] on [None] raises [AttributeError]. *)
Definition main_content (sp : soup) : result string :=
  let content := "" in
  let article := find "article" sp in
  let content :=
    match article with
    | Some a => get_text " " a
    | None => content
    end in
  let content :=
    if negb (truthy content) then
      match find "main" sp with
      | Some m => get_text " " m
      | None => content
      end
    else content in
  let content :=
    if negb (truthy content)
    then div_loop (find_all "div" content_classes sp) content
    else content in
  if negb (truthy content) then
    match find "body" sp with
    | Some body => Ok (get_text " " body)
    | None => Raise "AttributeError"
    end
  else Ok content.

Section WithNetwork.

(** [requests.get(url, headers=headers, timeout=10)] *)
Variable requests_get : string → result response.
(** [BeautifulSoup(markup, 'html.parser')] *)
Variable BeautifulSoup : string → result soup.
(** [feedparser.parse(rss_url)] *)
Variable feedparser_parse : string → result feed.

Definition clean_html (html_text : string) : string :=
  try_except
    (sp ← BeautifulSoup html_text;
     Ok (soup_get_text " " sp))
    (λ _, html_text).

Definition fetch_article_content (url : string) (max_length : Z) : string :=
  try_except
    (response ← requests_get url;
     _ ← raise_for_status response;
     sp ← BeautifulSoup (text response);
     content ← main_content sp;
     Ok (slice_to content max_length))
    (λ _, content_not_available).

(** Lines 33-38: the dictionary built for one entry. *)
Definition new_item (entry : gmap string string) : gmap string string :=
  <["title" := dict_get entry "title" "No title"]>
  (<["link" := dict_get entry "link" "#"]>
  (<["description" :=
       clean_html (dict_get entry "description"
                     (dict_get entry "summary" "No description"))]>
  (<["published" := dict_get entry "published" "No date"]> ∅))).

(** Lines 41-45.  The [try] covers the lookup of the link and the call;
    its handler leaves [item] as it is. *)
Definition enrich (item : gmap string string) : result (gmap string string) :=
  description ← getitem item "description";
  if (len description <? 100)%Z && bool_decide ("link" ∈ dom item) then
    Ok (try_except
          (link ← getitem item "link";
           Ok (<["description" := fetch_article_content link 1000]> item))
          (λ _, item))
  else Ok item.

(** The [for] loop of lines 31-47. *)
Fixpoint entries_loop (es : list (gmap string string))
    (news_items : list (gmap string string))
  : result (list (gmap string string)) :=
  match es with
  | [] => Ok news_items
  | entry :: rest =>
      item ← enrich (new_item entry);
      entries_loop rest (news_items ++ [item])
  end.

Definition fetch_news (rss_url : string) : list (gmap string string) :=
  try_except
    (fd ← feedparser_parse rss_url;
     if bool_decide (is_Some (bozo_exception fd)) then Ok []
     else entries_loop (entries fd) [])
    (λ _, []).

End WithNetwork.

End NewsFetcher.

(** ** [utils/summarizer.py] *)

Module Summarizer.

(** What the code uses of a tokenizer: [encode(text, truncation, max_length)]
    and [decode(tokens, skip_special_tokens)]. *)
Record tokenizer_t : Type :=
  { encode : string → bool → Z → result (list Z);
    decode : list Z → bool → result string }.

(** What the code uses of a summarization pipeline: its [tokenizer]
    attribute, and the call
    [p(text, max_length=, min_length=, do_sample=)]. *)
Record pipeline_t : Type :=
  { tokenizer : tokenizer_t;
    call : string → Z → Z → bool → result (list (gmap string string)) }.

(** Calls into the [transformers] package, in the order they happen. *)
Inductive event : Type :=
| LoadTokenizer | LoadModel | BuildPipeline | Encode | Decode | Generate.

(** The module global [summarizer], and the calls made so far. *)
Record state : Type :=
  { summarizer : option pipeline_t; trace : list event }.

Definition get_summarizer : io state (option pipeline_t) :=
  λ st, (Ok (summarizer st), st).

Definition set_summarizer (p : option pipeline_t) : io state unit :=
  λ st, (Ok (), {| summarizer := p; trace := trace st |}).

(** A call into the package: recorded, then its outcome. *)
Definition backend {A} (ev : event) (r : result A) : io state A :=
  λ st, (r, {| summarizer := summarizer st; trace := trace st ++ [ev] |}).

Definition model_name : string := "Falconsai/text_summarization".

Section WithBackend.

(** [os.getenv("HUGGINGFACE_API_KEY")] *)
Variable api_key : option string.
(** [AutoTokenizer.from_pretrained(name, use_auth_token=)] *)
Variable tokenizer_from_pretrained : string → option string → result tokenizer_t.
(** [AutoModelForSeq2SeqLM.from_pretrained(name, use_auth_token=)] *)
Variable Model : Type.
Variable model_from_pretrained : string → option string → result Model.
(** [pipeline("summarization", model=, tokenizer=)] *)
Variable pipeline : string → Model → tokenizer_t → result pipeline_t.

Definition load_summarizer : state → option pipeline_t * state :=
  io_try_return
    (current ← get_summarizer;
     _ ← match current with
         | None =>
             let token := if truthy_opt api_key then api_key else None in
             tok ← backend LoadTokenizer
                     (tokenizer_from_pretrained model_name token);
             model ← backend LoadModel
                       (model_from_pretrained model_name token);
             p ← backend BuildPipeline
                   (pipeline "summarization" model tok);
             set_summarizer (Some p)
         | Some _ => mret ()
         end;
     get_summarizer)
    (λ _ st, (None, st)).

Definition summarize_text (text : string) (max_length min_length : Z)
  : state → string * state :=
  io_try_return
    (if (Z.of_nat (length (split text)) <? min_length)%Z then mret text
     else
       sum_pipeline ← call_total load_summarizer;
       match sum_pipeline with
       | None => mret text
       | Some sum_pipeline =>
           let max_input_length := 1024%Z in
           let tokenizer := tokenizer sum_pipeline in
           tokens ← backend Encode (encode tokenizer text true max_input_length);
           truncated_text ← backend Decode (decode tokenizer tokens true);
           summary ← backend Generate
                       (call sum_pipeline truncated_text max_length min_length false);
           match summary with
           | first :: _ => lift (getitem first "summary_text")
           | [] => mret text
           end
       end)
    (λ _ st, (text, st)).

End WithBackend.

End Summarizer.

(** ** [utils/voice_generator.py] *)

Module VoiceGenerator.

(** The file system as the code sees it: what lies at a path. *)
Inductive entry : Type :=
| File (data : string)
| Dir.

(** The store: the file system, and how many candidate names for temporary
    files were drawn. *)
Record state : Type :=
  { fs : gmap string entry; drawn : nat }.

Definition with_fs (f : gmap string entry → gmap string entry) (st : state)
  : state :=
  {| fs := f (fs st); drawn := drawn st |}.

(** The fixed table of reference samples (lines 62-68). *)
Definition reference_files : gmap string string :=
  <["Morgan Freeman" := "reference_audio/morgan_freeman.wav"]>
  (<["Oprah Winfrey" := "reference_audio/oprah_winfrey.wav"]>
  (<["Barack Obama" := "reference_audio/barack_obama.wav"]>
  (<["Emma Watson" := "reference_audio/emma_watson.wav"]>
  (<["David Attenborough" := "reference_audio/david_attenborough.wav"]> ∅)))).

Definition unavailable_message : string :=
  "TTS is not available. Please install the TTS package to use voice cloning.".

Definition xtts_v2 : string := "tts_models/multilingual/multi-dataset/xtts_v2".

(** What the code uses of a loaded [TTS] object:
    [tts_to_file(text=, file_path=, speaker_wav=, language=)], here the
    bytes it writes to [file_path], or the exception it raises. *)
Record tts_t : Type :=
  { synthesize : string → option string → string → result string }.

(** [os.path.exists(path)] *)
Definition path_exists (path : string) (st : state) : bool :=
  bool_decide (is_Some (fs st !! path)).

(** [path.endswith('/')] *)
Fixpoint ends_with_sep (path : string) : bool :=
  match path with
  | EmptyString => false
  | String c EmptyString => bool_decide (c = "/"%char)
  | String _ rest => ends_with_sep rest
  end.

(** [os.path.join(dir, name)] for a [name] that does not start with a
    slash: the separator is added unless [dir] is empty or ends with
    one. *)
Definition path_join (dir name : string) : string :=
  if truthy dir && negb (ends_with_sep dir)
  then dir +:+ "/" +:+ name
  else dir +:+ name.

(** The name [tempfile.mkstemp(suffix=suffix)] tries for the random part
    [r]: [os.path.join(dir, "tmp" + r + suffix)], where [dir] is
    [tempfile.gettempdir()].  The random part is made of letters, digits
    and underscores, and [dir] is absolute and normalized, so the
    [os.path.abspath] that [mkstemp] applies changes nothing. *)
Definition temp_path (dir r suffix : string) : string :=
  path_join dir ("tmp" +:+ r +:+ suffix).

Section WithSystem.

(** May a directory be created at this path? *)
Variable mkdir_permitted : string → bool.
(** Does writing to this path succeed? *)
Variable write_permitted : string → bool.
(** The size the system reports for a directory. *)
Variable dir_size : string → Z.
(** [tempfile.gettempdir()]: the directory of the temporary files, taken
    from [TMPDIR], [TEMP], [TMP] or the defaults of the platform. *)
Variable gettempdir : string.
(** [tempfile.TMP_MAX]: how many names [mkstemp] tries before it gives
    up. *)
Variable TMP_MAX : positive.
(** The random part of the [n]-th candidate name; [None] when the system
    refuses to create a file ([OSError]: no usable directory, no
    permission, no space). *)
Variable mkstemp_draw : nat → option string.
(** [from TTS.api import TTS] *)
Variable import_TTS : result unit.
(** [os.getenv("COQUI_API_KEY")] *)
Variable api_key : option string.
(** [torch.cuda.is_available()] *)
Variable cuda_is_available : bool.
(** [TTS(model_name, coqui_api_key=).to(device)] *)
Variable TTS : string → option string → string → result tts_t.
(** The module flag set when [pydub] is imported. *)
Variable AUDIO_PROCESSING_AVAILABLE : bool.
(** [AudioSegment.from_wav], [normalize] and the bytes [export] writes. *)
Variable normalize : string → result string.

(** [os.path.exists(path)] as a statement. *)
Definition exists_ (path : string) : io state bool :=
  λ st, (Ok (path_exists path st), st).

(** [os.path.getsize(path)] *)
Definition getsize (path : string) : io state Z :=
  λ st,
    match fs st !! path with
    | Some (File data) => (Ok (len data), st)
    | Some Dir => (Ok (dir_size path), st)
    | None => (Raise "FileNotFoundError", st)
    end.

(** [os.makedirs(path, exist_ok=True)] for a path of one component. *)
Definition makedirs (path : string) : io state unit :=
  λ st,
    match fs st !! path with
    | Some Dir => (Ok (), st)
    | Some (File _) => (Raise "FileExistsError", st)
    | None =>
        if mkdir_permitted path
        then (Ok (), with_fs (insert path Dir) st)
        else (Raise "PermissionError", st)
    end.

(** The loop of [tempfile.mkstemp]: a candidate name is drawn and the file
    is opened with [O_CREAT | O_EXCL]; when the name is taken the next
    candidate is tried, [attempts] times in all, and [FileExistsError] is
    raised when every one was taken. *)
Fixpoint mkstemp_from (attempts : nat) (suffix : string) : io state string :=
  λ st,
    match attempts with
    | 0 => (Raise "FileExistsError", st)
    | S attempts' =>
        let st' := {| fs := fs st; drawn := S (drawn st) |} in
        match mkstemp_draw (drawn st) with
        | None => (Raise "OSError", st')
        | Some r =>
            let path := temp_path gettempdir r suffix in
            match fs st !! path with
            | Some _ => mkstemp_from attempts' suffix st'
            | None => (Ok path, with_fs (insert path (File "")) st')
            end
        end
    end.

(** [fd, path = tempfile.mkstemp(suffix=suffix); os.close(fd)]: a new,
    empty file under a name that was not in use. *)
Definition mkstemp (suffix : string) : io state string :=
  mkstemp_from (Pos.to_nat TMP_MAX) suffix.

(** [with open(path, 'w') as f: f.write(data)], and every other
    writer that replaces the content of a file. *)
Definition write_file (path data : string) : io state unit :=
  λ st,
    match fs st !! path with
    | Some Dir => (Raise "IsADirectoryError", st)
    | _ =>
        if write_permitted path
        then (Ok (), with_fs (insert path (File data)) st)
        else (Raise "OSError", st)
    end.

Definition read_file (path : string) : io state string :=
  λ st,
    match fs st !! path with
    | Some (File data) => (Ok data, st)
    | Some Dir => (Raise "IsADirectoryError", st)
    | None => (Raise "FileNotFoundError", st)
    end.

(** Lines 36-49.  Only [ImportError] is handled by the inner [try];
    the outer one handles the rest, with the same answer. *)
Definition load_tts_model : bool :=
  try_except
    (match import_TTS with
     | Ok _ => Ok true
     | Raise e => if decide (e = "ImportError") then Ok false else Raise e
     end)
    (λ _, false).

Definition get_reference_audio_path (celebrity : string)
  : state → option string * state :=
  λ st,
    match reference_files !! celebrity with
    | Some path =>
        if path_exists path st then (Some path, st)
        else io_try_return (_ ← makedirs "reference_audio"; mret None)
               (λ _ st', (None, st')) st
    | None =>
        io_try_return (_ ← makedirs "reference_audio"; mret None)
          (λ _ st', (None, st')) st
    end.

Definition process_audio (audio_path : string) : state → unit * state :=
  if negb AUDIO_PROCESSING_AVAILABLE then λ st, ((), st)
  else
    io_try_return
      (there ← exists_ audio_path;
       if negb there then mret ()
       else
         size ← getsize audio_path;
         if (size =? 0)%Z then mret ()
         else
           io_try
             (audio ← read_file audio_path;
              normalized_audio ← lift (normalize audio);
              write_file audio_path normalized_audio)
             (λ _, mret ()))
      (λ _ st, ((), st)).

(** The [try] block of [generate_voice_clone] (lines 101-171). *)
Definition synthesis (text celebrity : string) : io state (option string) :=
  let tts_available := load_tts_model in
  if negb tts_available then
    output_path ← mkstemp ".wav";
    _ ← write_file output_path unavailable_message;
    mret (Some output_path)
  else
    _ ← lift import_TTS;
    let device := if cuda_is_available then "cuda" else "cpu" in
    tts_model ← lift (if truthy_opt api_key
                      then TTS xtts_v2 api_key device
                      else TTS xtts_v2 None device);
    reference_audio ← call_total (get_reference_audio_path celebrity);
    output_path ← mkstemp ".wav";
    _ ← (if truthy_opt reference_audio then
           audio ← lift (synthesize tts_model text reference_audio "en");
           write_file output_path audio
         else
           audio ← lift (synthesize tts_model text None "en");
           write_file output_path audio);
    _ ← (if AUDIO_PROCESSING_AVAILABLE
         then call_total (process_audio output_path)
         else mret ());
    mret (Some output_path).

(** Its handler (lines 173-184): a new temporary file that is left empty,
    and [None] when that fails as well. *)
Definition placeholder_on_error : state → option string * state :=
  io_try_return
    (output_path ← mkstemp ".wav";
     mret (Some output_path))
    (λ _ st, (None, st)).

Definition generate_voice_clone (text celebrity : string)
  : state → option string * state :=
  io_try_return (synthesis text celebrity) (λ _, placeholder_on_error).

End WithSystem.

End VoiceGenerator.

(** ** Reference behaviour of the news fetcher

    Declarative counterparts of the loops and assignments above, against
    which they are proved. *)

Module NewsFetcherSpec.

Import NewsFetcher.

(** The texts the search of [fetch_article_content] looks at before the
    body: the first [article], the first [main], then every [div] of a
    content class, in document order. *)
Definition candidates (sp : soup) : list string :=
  option_list (get_text " " <$> find "article" sp)
  ++ option_list (get_text " " <$> find "main" sp)
  ++ (get_text " " <$> find_all "div" content_classes sp).

Definition first_non_empty (texts : list string) : option string :=
  head (filter (λ s, truthy s = true) texts).

(** The first non-empty candidate, else the text of the body. *)
Definition priority_content (sp : soup) : result string :=
  match first_non_empty (candidates sp) with
  | Some content => Ok content
  | None =>
      match find "body" sp with
      | Some body => Ok (get_text " " body)
      | None => Raise "AttributeError"
      end
  end.

(** The priority order in the words of the specification: the first
    [article] if present and non-empty, else the first [main], else the
    first element of a content class, else the body. *)
Definition priority_as_specified (sp : soup) : option string :=
  let article := get_text " " <$> find "article" sp in
  if truthy_opt article then article
  else
    match find "main" sp with
    | Some m => Some (get_text " " m)
    | None =>
        match head (filter (has_class content_classes) (descendants sp)) with
        | Some e => Some (get_text " " e)
        | None => get_text " " <$> find "body" sp
        end
    end.

(** A page has none of the three kinds of content element. *)
Definition no_content_element (sp : soup) : Prop :=
  find "article" sp = None ∧ find "main" sp = None
  ∧ Forall (λ t, ¬ has_class content_classes t) (descendants sp).

Global Instance no_content_element_dec sp : Decision (no_content_element sp).
Proof. unfold no_content_element. apply _. Defined.

(** The description an entry brings: its [description], else its
    [summary], else the default. *)
Definition raw_description (entry : gmap string string) : string :=
  dict_get entry "description" (dict_get entry "summary" "No description").

(** The three fields of an item are present and non-empty. *)
Definition fields_non_empty (item : gmap string string) : Prop :=
  Forall (λ key, ∃ v, item !! key = Some v ∧ v ≠ "")
    ["title"; "link"; "description"].

(** A string holds the opening of a tag. *)
Definition has_markup (s : string) : Prop := occurs "<" s = true.

Section WithNetwork.

Variable requests_get : string → result response.
Variable BeautifulSoup : string → result soup.

(** The item of one entry, as the loop of [fetch_news] leaves it. *)
Definition item_of (entry : gmap string string) : gmap string string :=
  let item := new_item BeautifulSoup entry in
  if (len (clean_html BeautifulSoup (raw_description entry)) <? 100)%Z
  then <["description" :=
           fetch_article_content requests_get BeautifulSoup
             (dict_get entry "link" "#") 1000]> item
  else item.

(** The request for [url] raises. *)
Definition requests_get_fails (url : string) : Prop :=
  ∃ e, requests_get url = Raise e.

(** The page behind [url] was fetched and parsed. *)
Definition fetched (url : string) (sp : soup) : Prop :=
  ∃ r, requests_get url = Ok r ∧ raise_for_status r = Ok ()
       ∧ BeautifulSoup (text r) = Ok sp.

End WithNetwork.

End NewsFetcherSpec.

(** ** Reference behaviour of the summarizer *)

Module SummarizerSpec.

Import Summarizer.

(** [len(text.split())] *)
Definition word_count (text : string) : Z := Z.of_nat (length (split text)).

(** With pipeline [p] loaded, a stage after the load fails: the tokenizer
    raises while encoding or decoding, the model raises, it returns no
    result, or its first result has no summary. *)
Inductive stage_fails (p : pipeline_t) (text : string)
    (max_length min_length : Z) : Prop :=
| encode_fails e :
    encode (tokenizer p) text true 1024 = Raise e →
    stage_fails p text max_length min_length
| decode_fails tokens e :
    encode (tokenizer p) text true 1024 = Ok tokens →
    decode (tokenizer p) tokens true = Raise e →
    stage_fails p text max_length min_length
| inference_fails tokens truncated e :
    encode (tokenizer p) text true 1024 = Ok tokens →
    decode (tokenizer p) tokens true = Ok truncated →
    call p truncated max_length min_length false = Raise e →
    stage_fails p text max_length min_length
| result_empty tokens truncated :
    encode (tokenizer p) text true 1024 = Ok tokens →
    decode (tokenizer p) tokens true = Ok truncated →
    call p truncated max_length min_length false = Ok [] →
    stage_fails p text max_length min_length
| result_without_summary tokens truncated first rest :
    encode (tokenizer p) text true 1024 = Ok tokens →
    decode (tokenizer p) tokens true = Ok truncated →
    call p truncated max_length min_length false = Ok (first :: rest) →
    first !! "summary_text" = None →
    stage_fails p text max_length min_length.

(** Every stage succeeds and the model answers [summary]. *)
Definition stages_succeed (p : pipeline_t) (text : string)
    (max_length min_length : Z) (summary : string) : Prop :=
  ∃ tokens truncated first rest,
    encode (tokenizer p) text true 1024 = Ok tokens
    ∧ decode (tokenizer p) tokens true = Ok truncated
    ∧ call p truncated max_length min_length false = Ok (first :: rest)
    ∧ first !! "summary_text" = Some summary.

End SummarizerSpec.

(** ** Reference behaviour of the voice generator *)

Module VoiceGeneratorSpec.

Import VoiceGenerator.

(** What a caller needs before playback: a path was returned, and it names
    a file that exists and is not empty. *)
Definition usable (out : option string * state) : Prop :=
  ∃ path data, out.1 = Some path ∧ fs out.2 !! path = Some (File data)
               ∧ (0 < len data)%Z.

(** The directory of the reference samples exists. *)
Definition reference_dir_exists (st : state) : Prop :=
  fs st !! "reference_audio" = Some Dir.

(** The audio libraries never write an empty file: what [tts_to_file]
    writes, and what [export] writes for a non-empty input, starts with
    the header of a WAV file. *)
Definition writes_audio
    (TTS : string → option string → string → result tts_t)
    (normalize : string → result string) : Prop :=
  (∀ model_name key device tts_model text speaker language audio,
     TTS model_name key device = Ok tts_model →
     synthesize tts_model text speaker language = Ok audio → audio ≠ "")
  ∧ (∀ audio normalized,
       audio ≠ "" → normalize audio = Ok normalized → normalized ≠ "").

End VoiceGeneratorSpec.

(** ** Concrete feeds, pages and systems

    The inputs at which the theorems below are instantiated. *)

Module Scenario.

Import NewsFetcher.

(** No network: every request fails. *)
Definition offline : string → result response :=
  λ _, Raise "ConnectionError".

(** A site that serves one page. *)
Definition serving (url body : string) : string → result response :=
  λ u, if decide (u = url)
       then Ok {| status_code := 200; text := body |}
       else Raise "ConnectionError".

(** The parser on the markup used below.  Markup without tags and
    entities parses to a single string, and empty markup to no node. *)
Definition parser (known : gmap string soup) : string → result soup :=
  λ markup,
    match known !! markup with
    | Some sp => Ok sp
    | None => Ok (if truthy markup then [NavigableString markup] else [])
    end.

Definition feed_of (es : list (gmap string string)) : string → result feed :=
  λ _, Ok {| bozo_exception := None; entries := es |}.

Definition feed_url : string := "http://news.example/rss.xml".
Definition story_url : string := "http://news.example/story".

(** An entry titled "Test" with the description [<p>Short</p>]. *)
Definition short_markup : string := "<p>Short</p>".
Definition short_soup : soup := [Tag "p" [] [NavigableString "Short"]].
Definition short_entry : gmap string string :=
  <["title" := "Test"]> (<["link" := story_url]>
  (<["description" := short_markup]> ∅)).

(** A page whose body is empty. *)
Definition empty_page : string := "<html><body></body></html>".
Definition empty_soup : soup := [Tag "html" [] [Tag "body" [] []]].

(** A page without a body element. *)
Definition bare_page : string := "<p>Hello</p>".
Definition bare_soup : soup := [Tag "p" [] [NavigableString "Hello"]].

(** A page that keeps its text in a [section] of class [content]. *)
Definition section_page : string :=
  "<html><body><p>Nav</p><section class=content>Hello</section></body></html>".
Definition section_soup : soup :=
  [Tag "html" []
     [Tag "body" []
        [Tag "p" [] [NavigableString "Nav"];
         Tag "section" ["content"] [NavigableString "Hello"]]]].

(** A page with an empty [main] and two candidate [div]s. *)
Definition div_page : string :=
  "<body><main></main><div class=content> </div><div class=entry-content>Second</div></body>".
Definition div_soup : soup :=
  [Tag "body" []
     [Tag "main" [] [];
      Tag "div" ["content"] [NavigableString " "];
      Tag "div" ["entry-content"] [NavigableString "Second"]]].

(** A page with an article. *)
Definition article_page : string :=
  "<html><body><article>Full article body text</article></body></html>".
Definition article_soup : soup :=
  [Tag "html" []
     [Tag "body" [] [Tag "article" [] [NavigableString "Full article body text"]]]].

(** A description whose markup was escaped twice by the publisher: after
    the feed is decoded it still holds entities, and the parser turns
    them into the characters of a tag inside one text string. *)
Definition escaped_markup : string :=
  "&lt;b&gt;Breaking&lt;/b&gt; The council approved the new budget after a long debate that lasted well into the night on Tuesday.".
Definition escaped_soup : soup :=
  [NavigableString
     "<b>Breaking</b> The council approved the new budget after a long debate that lasted well into the night on Tuesday."].
Definition escaped_entry : gmap string string :=
  <["title" := "Budget"]> (<["link" := story_url]>
  (<["description" := escaped_markup]> ∅)).

(** A plain description of more than 100 characters. *)
Definition long_text : string :=
  "The council approved the new budget after a long debate that lasted well into the night on Tuesday, officials said.".
Definition long_entry : gmap string string :=
  <["link" := story_url]> (<["description" := long_text]> ∅).

(** An entry whose title is present and empty. *)
Definition untitled_entry : gmap string string :=
  <["title" := ""]> (<["link" := story_url]>
  (<["description" := long_text]> ∅)).

Definition known_markup : gmap string soup :=
  <[short_markup := short_soup]> (<[empty_page := empty_soup]>
  (<[bare_page := bare_soup]> (<[section_page := section_soup]>
  (<[div_page := div_soup]> (<[article_page := article_soup]>
  (<[escaped_markup := escaped_soup]> ∅)))))).

(** *** The summarizer *)

(** A process in which no model was loaded and no call was made. *)
Definition fresh : Summarizer.state :=
  {| Summarizer.summarizer := None; Summarizer.trace := [] |}.

(** The text of the specification's scenario: ten words. *)
Definition ten_words : string :=
  "word word word word word word word word word word ".

(** The model hub cannot be reached. *)
Definition hub_down {A} : string → option string → result A :=
  λ _ _, Raise "OSError".

(** A tokenizer and a model that answer. *)
Definition some_tokenizer : Summarizer.tokenizer_t :=
  {| Summarizer.encode := λ _ _ _, Ok [101; 2023; 102]%Z;
     Summarizer.decode := λ _ _, Ok "decoded text" |}.

Definition some_pipeline : Summarizer.pipeline_t :=
  {| Summarizer.tokenizer := some_tokenizer;
     Summarizer.call := λ _ _ _ _, Ok [ {[ "summary_text" := "A summary." ]} ] |}.

(** A model that raises during inference. *)
Definition failing_pipeline : Summarizer.pipeline_t :=
  {| Summarizer.tokenizer := some_tokenizer;
     Summarizer.call := λ _ _ _ _, Raise "RuntimeError" |}.

(** *** The voice generator *)

(** An empty file system. *)
Definition empty_disk : VoiceGenerator.state :=
  {| VoiceGenerator.fs := ∅; VoiceGenerator.drawn := 0 |}.

(** A regular file occupies the name of the sample directory. *)
Definition blocked_disk : VoiceGenerator.state :=
  {| VoiceGenerator.fs := {[ "reference_audio" := VoiceGenerator.File "notes" ]};
     VoiceGenerator.drawn := 0 |}.

(** The sample of one voice is in place. *)
Definition disk_with_sample : VoiceGenerator.state :=
  {| VoiceGenerator.fs :=
       <["reference_audio" := VoiceGenerator.Dir]>
       {[ "reference_audio/morgan_freeman.wav" := VoiceGenerator.File "RIFF" ]};
     VoiceGenerator.drawn := 0 |}.

(** The directory of the temporary files, and the number of names that
    are tried. *)
Definition tmp_dir : string := "/tmp".
Definition tmp_max : positive := 10000.

(** Temporary names as they are drawn. *)
Definition draw (n : nat) : option string :=
  match n with
  | 0 => Some "k3x9q2"
  | 1 => Some "p7m2zc"
  | _ => None
  end.

Definition permitted : string → bool := λ _, true.
Definition block_size : string → Z := λ _, 4096%Z.

(** The [TTS] package is missing. *)
Definition not_installed : result unit := Raise "ImportError".

(** The package is there; loading the model raises. *)
Definition model_missing : string → option string → string
    → result VoiceGenerator.tts_t :=
  λ _ _ _, Raise "RuntimeError".

(** A model that writes a few bytes. *)
Definition some_tts : string → option string → string
    → result VoiceGenerator.tts_t :=
  λ _ _ _, Ok {| VoiceGenerator.synthesize := λ _ _ _, Ok "RIFFdata" |}.

(** The parser of the scenarios. *)
Definition html_parser : string → result soup := parser known_markup.

End Scenario.

(** ** [app.py]

    The script runs from top to bottom at every interaction.  The calls
    that only draw the page ([st.title], [st.markdown], [st.spinner], ...)
    return nothing the script reads; of them the model keeps what is shown
    by [st.audio] and [st.error] after a press of a play button.  The value
    of [st.button] is an input. *)

Module App.

(** What the play button of an item leaves on the page. *)
Inductive shown : Type :=
| Audio (path : string)
| ErrorMessage (msg : string).

(** The store of the script: the list [st.session_state.news_items], the
    global of [utils.summarizer], the file system, and the page. *)
Record session : Type :=
  { news_items : list (gmap string string);
    model : Summarizer.state;
    disk : VoiceGenerator.state;
    page : list shown }.

Definition generation_failed : string :=
  "Failed to generate audio. Please check if TTS package is installed.".

(** The object at position [i] of the session list. *)
Definition item_at (i : nat) : io session (gmap string string) :=
  λ s,
    match news_items s !! i with
    | Some item => (Ok item, s)
    | None => (Raise "IndexError", s)
    end.

(** [item[key]] *)
Definition field (i : nat) (key : string) : io session string :=
  item ← item_at i;
  lift (getitem item key).

(** [item[key] = value]: the dictionary is changed in place, so the change
    is seen through the session list. *)
Definition set_field (i : nat) (key value : string) : io session unit :=
  λ s,
    (Ok (),
     {| news_items := alter (insert key value) i (news_items s);
        model := model s; disk := disk s; page := page s |}).

Definition show (what : shown) : io session unit :=
  λ s,
    (Ok (),
     {| news_items := news_items s; model := model s; disk := disk s;
        page := page s ++ [what] |}).

Section WithServices.

Variable hf_api_key : option string.
Variable tokenizer_from_pretrained
  : string → option string → result Summarizer.tokenizer_t.
Variable Model : Type.
Variable model_from_pretrained : string → option string → result Model.
Variable pipeline : string → Model → Summarizer.tokenizer_t
                    → result Summarizer.pipeline_t.
(** What a call into [transformers] leaves on the file system: the files
    of the model that [from_pretrained] downloads into its cache. *)
Variable hub_cache : Summarizer.event → gmap string VoiceGenerator.entry
                     → gmap string VoiceGenerator.entry.

Variable mkdir_permitted : string → bool.
Variable write_permitted : string → bool.
Variable dir_size : string → Z.
Variable gettempdir : string.
Variable TMP_MAX : positive.
Variable mkstemp_draw : nat → option string.
Variable import_TTS : result unit.
Variable coqui_api_key : option string.
Variable cuda_is_available : bool.
Variable TTS : string → option string → string → result VoiceGenerator.tts_t.
Variable AUDIO_PROCESSING_AVAILABLE : bool.
Variable normalize : string → result string.

(** The voice chosen in the sidebar. *)
Variable selected_voice : string.
(** [st.button(..., key=f"play_{i}")] at this run of the script. *)
Variable pressed : nat → bool.

(** [summarize_text(text)], with its default lengths, on the global of the
    summarizer.  The calls it makes into [transformers] are the ones its
    trace gained; each of them may write to the cache on disk. *)
Definition summarize (text : string) : io session string :=
  λ s,
    let '(summary, m) :=
      Summarizer.summarize_text hf_api_key tokenizer_from_pretrained Model
        model_from_pretrained pipeline text 150 30 (model s) in
    let calls :=
      drop (length (Summarizer.trace (model s))) (Summarizer.trace m) in
    (Ok summary,
     {| news_items := news_items s; model := m;
        disk := VoiceGenerator.with_fs
                  (λ files, foldl (λ files ev, hub_cache ev files) files calls)
                  (disk s);
        page := page s |}).

(** [generate_voice_clone(text, selected_voice)] on the file system. *)
Definition generate (text : string) : io session (option string) :=
  λ s,
    let '(audio_file, d) :=
      VoiceGenerator.generate_voice_clone mkdir_permitted write_permitted
        dir_size gettempdir TMP_MAX mkstemp_draw import_TTS coqui_api_key
        cuda_is_available TTS AUDIO_PROCESSING_AVAILABLE normalize text
        selected_voice (disk s) in
    (Ok audio_file,
     {| news_items := news_items s; model := model s; disk := d;
        page := page s |}).

(** A statement on the file system, run on the session. *)
Definition on_disk {A} (m : io VoiceGenerator.state A) : io session A :=
  λ s,
    let '(r, d) := m (disk s) in
    (r, {| news_items := news_items s; model := model s; disk := d;
           page := page s |}).

(** Line 111:
    [audio_file and os.path.exists(audio_file) and os.path.getsize(audio_file) > 0] *)
Definition audio_ready (audio_file : option string) : io session bool :=
  if truthy_opt audio_file then
    let path := default "" audio_file in
    on_disk (VoiceGenerator.exists_ path) ≫= λ there : bool,
      if there then
        on_disk (VoiceGenerator.getsize dir_size path) ≫= λ size : Z,
          mret (0 <? size)%Z
      else mret false
  else mret false.

(** Lines 91-98: the summary is computed when the item has none. *)
Definition summary_step (i : nat) : io session unit :=
  item ← item_at i;
  if bool_decide ("summary" ∈ dom item) then mret ()
  else
    io_try
      (description ← field i "description";
       summary ← summarize description;
       set_field i "summary" summary)
      (λ _,
         description ← field i "description";
         set_field i "summary" description).

(** Lines 107-117: what a press of the play button does. *)
Definition audio_step (i : nat) : io session unit :=
  io_try
    (summary ← field i "summary";
     audio_file ← generate summary;
     audio_ready audio_file ≫= λ ready : bool,
       if ready then show (Audio (default "" audio_file))
       else show (ErrorMessage generation_failed))
    (λ e, show (ErrorMessage ("Error generating audio: " +:+ e))).

(** The body of the loop (lines 87-117) for the item at position [i]. *)
Definition show_item (i : nat) : io session unit :=
  _ ← field i "title";
  _ ← summary_step i;
  _ ← field i "description";
  _ ← field i "summary";
  _ ← field i "link";
  if pressed i then audio_step i else mret ().

(** [for i, item in enumerate(news_items[:10])], from position [i] on. *)
Fixpoint show_items (i count : nat) : io session unit :=
  match count with
  | 0 => mret ()
  | S count' =>
      _ ← show_item i;
      show_items (S i) count'
  end.

(** Lines 85-117, once the session holds a list of items. *)
Definition show_news : io session unit :=
  λ s, show_items 0 (min 10 (length (news_items s))) s.

End WithServices.

End App.

(** ** Notions used by the further properties *)

Module MoreSpec.

(** The first character, if any, is no whitespace. *)
Definition head_kept (s : string) : Prop :=
  match s with
  | EmptyString => True
  | String c _ => isspace c = false
  end.

(** The calls that load the summarization model, and the calls that run
    it, in the order of the source. *)
Definition load_events : list Summarizer.event :=
  [Summarizer.LoadTokenizer; Summarizer.LoadModel; Summarizer.BuildPipeline].

Definition run_events : list Summarizer.event :=
  [Summarizer.Encode; Summarizer.Decode; Summarizer.Generate].

(** The calls one summarization can make at most: loading only when no
    pipeline is stored. *)
Definition calls_allowed (st : Summarizer.state) : list Summarizer.event :=
  match Summarizer.summarizer st with
  | Some _ => run_events
  | None => load_events ++ run_events
  end.

(** Whatever existed on disk before is still there, as it was. *)
Definition kept (st st' : VoiceGenerator.state) : Prop :=
  ∀ p, is_Some (VoiceGenerator.fs st !! p) →
       VoiceGenerator.fs st' !! p = VoiceGenerator.fs st !! p.

(** A name [mkstemp(suffix='.wav')] makes in the directory [dir] of the
    temporary files. *)
Definition temporary_wav (dir path : string) : Prop :=
  ∃ r, path = VoiceGenerator.temp_path dir r ".wav".

(** What a call may add to the disk: the directory of the samples, and
    temporary [.wav] files. *)
Definition adds_only (dir : string) (st st' : VoiceGenerator.state) : Prop :=
  ∀ p, VoiceGenerator.fs st !! p = None →
       VoiceGenerator.fs st' !! p = None
       ∨ (p = "reference_audio"
          ∧ VoiceGenerator.fs st' !! p = Some VoiceGenerator.Dir)
       ∨ (temporary_wav dir p
          ∧ ∃ data, VoiceGenerator.fs st' !! p = Some (VoiceGenerator.File data)).

(** An item the page can show: it has a title, a description and a link. *)
Definition displayable (item : gmap string string) : Prop :=
  is_Some (item !! "title") ∧ is_Some (item !! "description")
  ∧ is_Some (item !! "link").

(** [item'] is [item] with its summary in place: it has a summary, its
    other fields are those of [item], and an [item] that had a summary is
    not changed at all. *)
Definition summary_added (item item' : gmap string string) : Prop :=
  is_Some (item' !! "summary")
  ∧ (∀ key, key ≠ "summary" → item' !! key = item !! key)
  ∧ (is_Some (item !! "summary") → item' = item).

Section WithBackend.

Variable api_key : option string.
Variable tokenizer_from_pretrained
  : string → option string → result Summarizer.tokenizer_t.
Variable Model : Type.
Variable model_from_pretrained : string → option string → result Model.
Variable pipeline : string → Model → Summarizer.tokenizer_t
                    → result Summarizer.pipeline_t.

(** [summary] is what [summarize_text] returns for [text], with its
    default lengths, in some state of the summarizer. *)
Definition summary_of (text summary : string) : Prop :=
  ∃ m, summary
       = (Summarizer.summarize_text api_key tokenizer_from_pretrained Model
            model_from_pretrained pipeline text 150 30 m).1.

(** [item'] is [item] with its summary in place, and a summary that was
    missing is the one [summarize_text] returns for the description. *)
Definition summary_computed (item item' : gmap string string) : Prop :=
  summary_added item item'
  ∧ (item !! "summary" = None →
     ∀ description, item !! "description" = Some description →
       ∃ summary, item' !! "summary" = Some summary
                  ∧ summary_of description summary).

End WithBackend.

End MoreSpec.

(** ** Further concrete inputs *)

Module MoreScenario.

Import NewsFetcher Scenario.

(** A site that answers every request with status 404 and an error page. *)
Definition not_found : string → result response :=
  λ _, Ok {| status_code := 404;
             text := "<html><body><article>Not Found</article></body></html>" |}.

(** A model whose voice call answers. *)
Definition talking_model : VoiceGenerator.tts_t :=
  {| VoiceGenerator.synthesize := λ _ _ _, Ok "RIFFdata" |}.

Definition talking_tts : string → option string → string
    → result VoiceGenerator.tts_t :=
  λ _ _ _, Ok talking_model.

(** A model that loads, and raises when it is asked to speak. *)
Definition mute_model : VoiceGenerator.tts_t :=
  {| VoiceGenerator.synthesize := λ _ _ _, Raise "RuntimeError" |}.

Definition mute_tts : string → option string → string
    → result VoiceGenerator.tts_t :=
  λ _ _ _, Ok mute_model.

(** An item as [fetch_news] returns it, and the same item once its summary
    is in place. *)
Definition fetched_item : gmap string string :=
  <["title" := "Budget"]> (<["link" := story_url]>
  (<["description" := long_text]> (<["published" := "No date"]> ∅))).

Definition narrated_item : gmap string string :=
  <["summary" := "A summary."]> fetched_item.

Definition new_session : App.session :=
  {| App.news_items := [fetched_item]; App.model := fresh;
     App.disk := empty_disk; App.page := [] |}.

Definition narrated_session : App.session :=
  {| App.news_items := [narrated_item]; App.model := fresh;
     App.disk := empty_disk; App.page := [] |}.

(** An item whose description has 41 words, and a session that holds
    it. *)
Definition long_read : string :=
  "The council approved the new budget after a long debate that lasted well into the night on Tuesday, officials said, and the mayor promised that the money for schools, roads and parks would be spent before the end of the year.".

Definition long_read_item : gmap string string :=
  <["title" := "Budget"]> (<["link" := story_url]>
  (<["description" := long_read]> (<["published" := "No date"]> ∅))).

Definition reading_session : App.session :=
  {| App.news_items := [long_read_item]; App.model := fresh;
     App.disk := empty_disk; App.page := [] |}.

(** No play button is pressed. *)
Definition no_press : nat → bool := λ _, false.

(** Nothing is downloaded. *)
Definition no_cache : Summarizer.event → gmap string VoiceGenerator.entry
    → gmap string VoiceGenerator.entry :=
  λ _ files, files.

(** The weights of the model are stored when the model is loaded. *)
Definition weights_cached : Summarizer.event → gmap string VoiceGenerator.entry
    → gmap string VoiceGenerator.entry :=
  λ ev files,
    match ev with
    | Summarizer.LoadModel =>
        <["/home/user/.cache/huggingface/hub/models--Falconsai--text_summarization"
          := VoiceGenerator.File "weights"]> files
    | _ => files
    end.

(** One run of the script, with the model hub out of reach and the [TTS]
    package missing. *)
Definition run_script : io App.session unit :=
  App.show_news None hub_down unit hub_down (λ _ _ _, Ok some_pipeline)
    no_cache permitted permitted block_size tmp_dir tmp_max draw
    not_installed None false model_missing false (λ s, Ok s)
    "Morgan Freeman" no_press.

(** One run of the script when the model can be downloaded. *)
Definition run_script_online : io App.session unit :=
  App.show_news None (λ _ _, Ok some_tokenizer) unit (λ _ _, Ok ())
    (λ _ _ _, Ok some_pipeline) weights_cached permitted permitted
    block_size tmp_dir tmp_max draw not_installed None false model_missing
    false (λ s, Ok s) "Morgan Freeman" no_press.

(** A press of the play button of the first item: without the package, and
    with the package when loading the model raises. *)
Definition press_without_package : io App.session unit :=
  App.audio_step permitted permitted block_size tmp_dir tmp_max draw
    not_installed None false model_missing false (λ s, Ok s)
    "Morgan Freeman" 0.

Definition press_with_model_error : io App.session unit :=
  App.audio_step permitted permitted block_size tmp_dir tmp_max draw
    (Ok ()) None false model_missing false (λ s, Ok s) "Morgan Freeman" 0.

End MoreScenario.

(** * Properties *)

(** ** Strings *)

Module PyFacts.

Lemma length_take n s : String.length (take n s) ≤ n.
Proof.
  revert n. induction s as [|c s IH]; intros [|n]; simpl; try lia.
  specialize (IH n). lia.
Qed.

Lemma len_slice_to s stop : (0 ≤ stop)%Z → (len (slice_to s stop) ≤ stop)%Z.
Proof.
  intros Hstop. unfold slice_to, len.
  destruct (Z.ltb_spec stop 0) as [?|_]; [lia|].
  pose proof (length_take (Z.to_nat stop) s). lia.
Qed.

Lemma truthy_false s : truthy s = false ↔ s = "".
Proof. destruct s; simpl; split; congruence. Qed.



Lemma occurs_lstrip c s : occurs c (lstrip s) = true → occurs c s = true.
Proof.
  induction s as [|d s IH]; simpl; [done|].
  destruct (isspace d); [|done].
  intros H. destruct (decide (c = d)); auto.
Qed.

Lemma occurs_rstrip c s : occurs c (rstrip s) = true → occurs c s = true.
Proof.
  induction s as [|d s IH]; simpl; [done|].
  destruct (rstrip s) as [|e r] eqn:Hr.
  - destruct (isspace d); simpl; [done|].
    destruct (decide (c = d)); done.
  - simpl. destruct (decide (c = d)); [done|]. exact IH.
Qed.

Lemma occurs_strip c s : occurs c (strip s) = true → occurs c s = true.
Proof. intros H. by apply occurs_lstrip, occurs_rstrip. Qed.

Lemma occurs_app c s1 s2 :
  occurs c (s1 +:+ s2) = occurs c s1 || occurs c s2.
Proof.
  induction s1 as [|d s1 IH]; simpl; [done|].
  destruct (decide (c = d)); [done|]. exact IH.
Qed.

Lemma occurs_join c sep parts :
  occurs c (join sep parts) = true →
  occurs c sep = true ∨ ∃ p, p ∈ parts ∧ occurs c p = true.
Proof.
  induction parts as [|p ps IH]; simpl; [done|].
  destruct ps as [|q ps].
  - intros H. right. exists p. split; [left|done].
  - rewrite !occurs_app. intros H.
    apply orb_true_iff in H as [H|H].
    { right. exists p. split; [left|done]. }
    apply orb_true_iff in H as [H|H]; [by left|].
    destruct (IH H) as [?|(r & Hr & Hc)]; [by left|].
    right. exists r. split; [by right|done].
Qed.

End PyFacts.

(** ** Parsed documents *)

Module Bs4Facts.

(** Induction over a document, with the property available for every
    child of an element. *)
Lemma node_forall_ind (P : node → Prop) :
  (∀ s, P (NavigableString s)) →
  (∀ nm cl cs, Forall P cs → P (Tag nm cl cs)) →
  ∀ n, P n.
Proof.
  intros Hstr Htag. fix IH 1. intros [s|nm cl cs]; [apply Hstr|].
  apply Htag. induction cs as [|c cs IHcs]; constructor; [apply IH|exact IHcs].
Qed.

Lemma strings_Tag nm cl cs : strings (Tag nm cl cs) = flat_map strings cs.
Proof. reflexivity. Qed.
Lemma tags_Tag nm cl cs :
  tags (Tag nm cl cs) = Tag nm cl cs :: flat_map tags cs.
Proof. reflexivity. Qed.

Lemma elem_of_flat_map {A B} (f : A → list B) (l : list A) (y : B) :
  y ∈ flat_map f l ↔ ∃ x, x ∈ l ∧ y ∈ f x.
Proof.
  rewrite list_elem_of_In, in_flat_map.
  split; intros (x & Hx & Hy); exists x; by rewrite ?list_elem_of_In in *.
Qed.

(** The strings of an element of the page are strings of the page. *)
Lemma tags_strings n : ∀ t s, t ∈ tags n → s ∈ strings t → s ∈ strings n.
Proof.
  induction n as [s0|nm cl cs IH] using node_forall_ind; intros t s Ht Hs.
  - by apply elem_of_nil in Ht.
  - rewrite tags_Tag in Ht. apply elem_of_cons in Ht as [->|Ht]; [done|].
    rewrite strings_Tag. apply elem_of_flat_map in Ht as (c & Hc & Ht).
    apply elem_of_flat_map. exists c. split; [done|].
    rewrite Forall_forall in IH. by apply (IH c Hc t s).
Qed.

Lemma descendants_strings sp t s :
  t ∈ descendants sp → s ∈ strings t → s ∈ soup_strings sp.
Proof.
  unfold descendants, soup_strings. intros Ht Hs.
  apply elem_of_flat_map in Ht as (n & Hn & Ht).
  apply elem_of_flat_map. exists n. split; [done|]. by apply (tags_strings n t).
Qed.

Lemma head_filter_elem {A} (P : A → Prop) `{∀ x, Decision (P x)} (l : list A) x :
  head (filter P l) = Some x → x ∈ l ∧ P x.
Proof.
  intros Hh. assert (x ∈ filter P l) as Hx.
  { destruct (filter P l); simplify_eq/=. left. }
  by apply list_elem_of_filter in Hx as [? ?].
Qed.

Lemma find_elem nm sp t : find nm sp = Some t → t ∈ descendants sp ∧ name_of t = nm.
Proof. intros H. by apply head_filter_elem in H as [? ?]. Qed.

Lemma find_all_elem nm wanted sp t :
  t ∈ find_all nm wanted sp →
  t ∈ descendants sp ∧ name_of t = nm ∧ has_class wanted t.
Proof. unfold find_all. rewrite list_elem_of_filter. tauto. Qed.

(** A character of the extracted text comes from the separator or from
    one of the strings. *)
Lemma occurs_text_of c sep ss :
  occurs c (text_of sep ss) = true →
  occurs c sep = true ∨ ∃ s, s ∈ ss ∧ occurs c s = true.
Proof.
  unfold text_of. intros H.
  apply PyFacts.occurs_join in H as [?|(p & Hp & Hc)]; [by left|].
  apply list_elem_of_filter in Hp as [_ Hp].
  apply list_elem_of_fmap in Hp as (s & -> & Hs).
  right. exists s. split; [done|]. by apply PyFacts.occurs_strip.
Qed.

End Bs4Facts.

(** ** The news fetcher *)

Module NewsFetcherFacts.

Import NewsFetcher NewsFetcherSpec.

Lemma first_non_empty_cons s texts :
  first_non_empty (s :: texts)
  = if truthy s then Some s else first_non_empty texts.
Proof.
  unfold first_non_empty. rewrite filter_cons.
  by destruct (truthy s).
Qed.

Lemma first_non_empty_truthy texts s :
  first_non_empty texts = Some s → truthy s = true.
Proof. intros H. by apply Bs4Facts.head_filter_elem in H as [_ ?]. Qed.

(** The loop over the [div]s returns the first non-empty text, and the
    empty string when there is none. *)
Lemma div_loop_first divs :
  div_loop divs "" = default "" (first_non_empty (get_text " " <$> divs)).
Proof.
  assert (∀ c0, truthy c0 = false →
            div_loop divs c0
            = default "" (first_non_empty (get_text " " <$> divs))) as H.
  { induction divs as [|d ds IH]; intros c0 Hc0; simpl.
    - by apply PyFacts.truthy_false in Hc0.
    - rewrite first_non_empty_cons.
      destruct (truthy (get_text " " d)) eqn:Hd; [done|]. by apply IH. }
  by apply H.
Qed.

(** The sequence of assignments to [content] computes the first non-empty
    candidate. *)
Lemma main_content_priority sp : main_content sp = priority_content sp.
Proof.
  unfold main_content, priority_content, candidates. cbv zeta.
  assert (∀ c0, truthy c0 = false →
    (if negb (truthy (div_loop (find_all "div" content_classes sp) c0))
     then match find "body" sp with
          | Some body => Ok (get_text " " body)
          | None => Raise "AttributeError"
          end
     else Ok (div_loop (find_all "div" content_classes sp) c0))
    = match first_non_empty
              (get_text " " <$> find_all "div" content_classes sp) with
      | Some content => Ok content
      | None => match find "body" sp with
                | Some body => Ok (get_text " " body)
                | None => Raise "AttributeError"
                end
      end) as Hdivs.
  { intros c0 ->%PyFacts.truthy_false. rewrite div_loop_first.
    destruct (first_non_empty _) as [c|] eqn:Hc; simpl; [|done].
    by rewrite (first_non_empty_truthy _ _ Hc). }
  destruct (find "article" sp) as [a|]; simpl.
  - rewrite first_non_empty_cons.
    destruct (truthy (get_text " " a)) eqn:Ha; simpl;
      [by repeat (rewrite Ha; simpl)|].
    destruct (find "main" sp) as [m|]; simpl.
    + rewrite first_non_empty_cons.
      destruct (truthy (get_text " " m)) eqn:Hm; simpl;
        [by repeat (rewrite Hm; simpl)|].
      by apply Hdivs.
    + rewrite Ha. simpl. by apply Hdivs.
  - destruct (find "main" sp) as [m|]; simpl.
    + rewrite first_non_empty_cons.
      destruct (truthy (get_text " " m)) eqn:Hm; simpl;
        [by repeat (rewrite Hm; simpl)|].
      by apply Hdivs.
    + by apply Hdivs.
Qed.

Lemma find_all_none nm wanted sp :
  Forall (λ t, ¬ has_class wanted t) (descendants sp) →
  find_all nm wanted sp = [].
Proof.
  unfold find_all. induction (descendants sp) as [|t ts IH]; [done|].
  intros [Ht Hts]%Forall_cons. rewrite filter_cons.
  case_decide as Hd; [tauto|by apply IH].
Qed.

Lemma priority_content_no_element sp :
  no_content_element sp →
  priority_content sp
  = match find "body" sp with
    | Some body => Ok (get_text " " body)
    | None => Raise "AttributeError"
    end.
Proof.
  intros (Ha & Hm & Hc). unfold priority_content, candidates.
  by rewrite Ha, Hm, (find_all_none _ _ _ Hc).
Qed.

Lemma len_content_not_available : len content_not_available = 21%Z.
Proof. reflexivity. Qed.

Section WithNetwork.

Variable requests_get : string → result response.
Variable BeautifulSoup : string → result soup.
Variable feedparser_parse : string → result feed.

Local Abbreviation clean_html := (clean_html BeautifulSoup).
Local Abbreviation fetch_article_content :=
  (fetch_article_content requests_get BeautifulSoup).
Local Abbreviation new_item := (new_item BeautifulSoup).
Local Abbreviation enrich := (enrich requests_get BeautifulSoup).
Local Abbreviation entries_loop := (entries_loop requests_get BeautifulSoup).
Local Abbreviation fetch_news :=
  (fetch_news requests_get BeautifulSoup feedparser_parse).
Local Abbreviation item_of := (item_of requests_get BeautifulSoup).
Local Abbreviation fetched := (fetched requests_get BeautifulSoup).

(** The two ways out of [fetch_article_content]. *)
Lemma fetch_article_content_cases url max_length :
  fetch_article_content url max_length = content_not_available
  ∨ ∃ sp content, fetched url sp ∧ main_content sp = Ok content
      ∧ fetch_article_content url max_length = slice_to content max_length.
Proof.
  unfold NewsFetcher.fetch_article_content, NewsFetcherSpec.fetched.
  destruct (requests_get url) as [r|e]; simpl; [|by left].
  destruct (raise_for_status r) as [[]|e] eqn:Hst; simpl; [|by left].
  destruct (BeautifulSoup (text r)) as [sp|e] eqn:Hsp; simpl; [|by left].
  destruct (main_content sp) as [c|e] eqn:Hc; simpl; [|by left].
  right. exists sp, c. split; [|done]. by exists r.
Qed.

Lemma fetch_article_content_fetched url max_length sp :
  fetched url sp →
  fetch_article_content url max_length
  = match main_content sp with
    | Ok content => slice_to content max_length
    | Raise _ => content_not_available
    end.
Proof.
  intros (r & Hr & Hst & Hsp). unfold NewsFetcher.fetch_article_content.
  rewrite Hr. simpl. rewrite Hst. simpl. rewrite Hsp. simpl.
  by destruct (main_content sp).
Qed.

(** C3 (amended).  With a non-negative [max_length], the string returned by
    [fetch_article_content] is the 21-character sentinel
    "Content not available" (the failure path, whatever [max_length] is),
    or it has at most [max_length] characters. *)
Theorem fetch_article_content_length url max_length :
  (0 ≤ max_length)%Z →
  (fetch_article_content url max_length = content_not_available
   ∧ len (fetch_article_content url max_length) = 21%Z)
  ∨ (len (fetch_article_content url max_length) ≤ max_length)%Z.
Proof.
  intros Hmax.
  destruct (fetch_article_content_cases url max_length)
    as [->|(sp & c & _ & _ & ->)].
  - left. split; [done|apply len_content_not_available].
  - right. by apply PyFacts.len_slice_to.
Qed.

(** C4 (amended).  For a fetched page with no [article], no [main] and no
    element of a content class, [fetch_article_content] returns the text of
    the body element cut to [max_length] (the empty string when the body
    holds no text), and the sentinel "Content not available" when the page
    has no body element. *)
Theorem body_fallback url max_length sp :
  fetched url sp →
  no_content_element sp →
  fetch_article_content url max_length
  = match find "body" sp with
    | Some body => slice_to (get_text " " body) max_length
    | None => content_not_available
    end.
Proof.
  intros Hf Hno. rewrite (fetch_article_content_fetched _ _ _ Hf).
  rewrite main_content_priority, (priority_content_no_element _ Hno).
  by destruct (find "body" sp).
Qed.

(** C9 (amended).  For a fetched page the content is the first non-empty
    text among: the first [article], the first [main], the [div] elements
    of class content, article-content, story-content or entry-content in
    document order; when there is none, the text of the body.  The result
    is cut to [max_length]; a page with no non-empty candidate and no body
    element gives the sentinel. *)
Theorem content_priority url max_length sp :
  fetched url sp →
  fetch_article_content url max_length
  = match priority_content sp with
    | Ok content => slice_to content max_length
    | Raise _ => content_not_available
    end.
Proof.
  intros Hf. rewrite (fetch_article_content_fetched _ _ _ Hf).
  by rewrite main_content_priority.
Qed.

(** *** The loop of [fetch_news] *)

Lemma new_item_title entry :
  new_item entry !! "title" = Some (dict_get entry "title" "No title").
Proof. unfold NewsFetcher.new_item. by simplify_map_eq. Qed.

Lemma new_item_link entry :
  new_item entry !! "link" = Some (dict_get entry "link" "#").
Proof. unfold NewsFetcher.new_item. by simplify_map_eq. Qed.

Lemma new_item_description entry :
  new_item entry !! "description" = Some (clean_html (raw_description entry)).
Proof. unfold NewsFetcher.new_item. by simplify_map_eq. Qed.

(** ['link' in item] holds for every item the loop builds. *)
Lemma new_item_has_link entry : "link" ∈ dom (new_item entry).
Proof. apply elem_of_dom. rewrite new_item_link. by eexists. Qed.

(** Neither the test nor the [try] of lines 41-45 raises, and the handler
    of that [try] is never entered. *)
Lemma enrich_new_item entry : enrich (new_item entry) = Ok (item_of entry).
Proof.
  unfold NewsFetcher.enrich, NewsFetcherSpec.item_of, getitem.
  rewrite new_item_description. simpl.
  rewrite (bool_decide_eq_true_2 _ (new_item_has_link entry)), andb_true_r.
  destruct (len _ <? 100)%Z; [|done].
  by rewrite new_item_link.
Qed.

Lemma entries_loop_items es news_items :
  entries_loop es news_items = Ok (news_items ++ (item_of <$> es)).
Proof.
  revert news_items. induction es as [|entry rest IH]; intros news_items; simpl.
  - by rewrite app_nil_r.
  - rewrite enrich_new_item. simpl. rewrite IH. by rewrite <- app_assoc.
Qed.

Lemma fetch_news_elem rss_url item :
  item ∈ fetch_news rss_url →
  ∃ fd entry, feedparser_parse rss_url = Ok fd ∧ entry ∈ entries fd
              ∧ item = item_of entry.
Proof.
  unfold NewsFetcher.fetch_news.
  destruct (feedparser_parse rss_url) as [fd|e]; simpl;
    [|by intros ?%elem_of_nil].
  case_bool_decide; simpl; [by intros ?%elem_of_nil|].
  rewrite entries_loop_items. simpl.
  intros (entry & -> & Hentry)%list_elem_of_fmap.
  by exists fd, entry.
Qed.

Lemma item_of_title entry :
  item_of entry !! "title" = Some (dict_get entry "title" "No title").
Proof.
  unfold NewsFetcherSpec.item_of. destruct (len _ <? 100)%Z.
  - rewrite lookup_insert_ne by done. apply new_item_title.
  - apply new_item_title.
Qed.

Lemma item_of_link entry :
  item_of entry !! "link" = Some (dict_get entry "link" "#").
Proof.
  unfold NewsFetcherSpec.item_of. destruct (len _ <? 100)%Z.
  - rewrite lookup_insert_ne by done. apply new_item_link.
  - apply new_item_link.
Qed.

Lemma item_of_description entry :
  item_of entry !! "description"
  = Some (if (len (clean_html (raw_description entry)) <? 100)%Z
          then fetch_article_content (dict_get entry "link" "#") 1000
          else clean_html (raw_description entry)).
Proof.
  unfold NewsFetcherSpec.item_of. destruct (len _ <? 100)%Z.
  - by rewrite lookup_insert_eq.
  - apply new_item_description.
Qed.

(** A short description whose page cannot be fetched is replaced by the
    sentinel of [fetch_article_content]. *)
Lemma item_of_unreachable entry e :
  (len (clean_html (raw_description entry)) < 100)%Z →
  requests_get (dict_get entry "link" "#") = Raise e →
  item_of entry !! "description" = Some content_not_available.
Proof.
  intros Hshort Hget. rewrite item_of_description.
  apply Z.ltb_lt in Hshort as ->.
  unfold NewsFetcher.fetch_article_content. by rewrite Hget.
Qed.

(** C7 (amended).  Every item returned by [fetch_news] comes from an entry
    of the feed.  Its title and link are the entry's own values when the
    entry has them (an empty value is kept as it is), and "No title" and
    "#" when the entry lacks them.  It has a description, which starts
    from the cleaned text of the entry's description (else of its summary,
    else of "No description").  When that text has 100 characters or more
    it is the description.  A shorter text goes to page enrichment: when
    the page behind the item's link is fetched and its main content is
    found, the description is that content cut to 1000 characters. *)
Theorem fetch_news_item_fields rss_url item :
  item ∈ fetch_news rss_url →
  ∃ fd entry,
    feedparser_parse rss_url = Ok fd ∧ entry ∈ entries fd
    ∧ item !! "title" = Some (default "No title" (entry !! "title"))
    ∧ item !! "link" = Some (default "#" (entry !! "link"))
    ∧ ∃ d, item !! "description" = Some d
           ∧ ((100 ≤ len (clean_html (raw_description entry)))%Z →
              d = clean_html (raw_description entry))
           ∧ ((len (clean_html (raw_description entry)) < 100)%Z →
              ∀ sp content,
                fetched (default "#" (entry !! "link")) sp →
                main_content sp = Ok content →
                d = slice_to content 1000).
Proof.
  intros (fd & entry & Hfd & Hentry & ->)%fetch_news_elem.
  exists fd, entry. split_and!; try done.
  - apply item_of_title.
  - apply item_of_link.
  - eexists. split_and!; [apply item_of_description| |].
    + intros Hlong. by apply Z.ltb_ge in Hlong as ->.
    + intros Hshort sp content Hpage Hcontent.
      apply Z.ltb_lt in Hshort as ->.
      fold (dict_get entry "link" "#").
      by rewrite (fetch_article_content_fetched _ _ _ Hpage), Hcontent.
Qed.

(** *** Where markup in a description comes from *)


Lemma has_markup_main_content sp content :
  main_content sp = Ok content → has_markup content →
  ∃ s, s ∈ soup_strings sp ∧ has_markup s.
Proof.
  rewrite main_content_priority. unfold priority_content, has_markup.
  assert (∀ t, t ∈ descendants sp → occurs "<" (get_text " " t) = true →
               ∃ s, s ∈ soup_strings sp ∧ occurs "<" s = true) as Helem.
  { intros t Ht [Hsep|(s & Hs & Hc)]%Bs4Facts.occurs_text_of; [done|].
    exists s. split; [|done]. by apply (Bs4Facts.descendants_strings sp t). }
  destruct (first_non_empty (candidates sp)) as [c|] eqn:Hc.
  - intros [= <-] Hm.
    apply Bs4Facts.head_filter_elem in Hc as [Hc _]. unfold candidates in Hc.
    rewrite !elem_of_app in Hc. destruct Hc as [Hc|[Hc|Hc]].
    + destruct (find "article" sp) as [a|] eqn:Ha; simpl in Hc;
        [|by apply elem_of_nil in Hc].
      apply list_elem_of_singleton in Hc as ->.
      apply Bs4Facts.find_elem in Ha as [Ha _]. by apply (Helem a).
    + destruct (find "main" sp) as [m|] eqn:Hmn; simpl in Hc;
        [|by apply elem_of_nil in Hc].
      apply list_elem_of_singleton in Hc as ->.
      apply Bs4Facts.find_elem in Hmn as [Hmn _]. by apply (Helem m).
    + apply list_elem_of_fmap in Hc as (d & -> & Hd).
      apply Bs4Facts.find_all_elem in Hd as [Hd _]. by apply (Helem d).
  - destruct (find "body" sp) as [b|] eqn:Hb; [|done].
    intros [= <-] Hm. apply Bs4Facts.find_elem in Hb as [Hb _].
    by apply (Helem b).
Qed.



End WithNetwork.

End NewsFetcherFacts.
Module NewsFetcherCases.
Import NewsFetcher NewsFetcherSpec NewsFetcherFacts Scenario.

(** Settle a decidable statement about a concrete input by evaluation. *)
Ltac by_evaluation := apply (bool_decide_unpack _); vm_compute; exact I.

Lemma fetch_article_content_length_witness :
  (0 ≤ 10)%Z
  ∧ ((fetch_article_content (serving story_url article_page) html_parser
        story_url 10 = content_not_available
      ∧ len (fetch_article_content (serving story_url article_page)
               html_parser story_url 10) = 21%Z)
     ∨ (len (fetch_article_content (serving story_url article_page)
               html_parser story_url 10) ≤ 10)%Z).
Proof.
  split; [lia|].
  apply (fetch_article_content_length (serving story_url article_page)
           html_parser story_url 10).
  lia.
Defined.

(** C3, as stated, fails on the failure path: with [max_length] 5 and the
    page out of reach, the 21 characters of the sentinel are returned. *)
Lemma sentinel_exceeds_max_length :
  ¬ (len (fetch_article_content offline html_parser story_url 5) ≤ 5)%Z.
Proof.
  assert (len (fetch_article_content offline html_parser story_url 5) = 21%Z)
    as -> by reflexivity.
  lia.
Qed.

Lemma empty_page_fetched :
  fetched (serving story_url empty_page) html_parser story_url empty_soup.
Proof. eexists. split_and!; reflexivity. Qed.

Lemma body_fallback_witness :
  fetched (serving story_url empty_page) html_parser story_url empty_soup
  ∧ no_content_element empty_soup
  ∧ fetch_article_content (serving story_url empty_page) html_parser
      story_url 1000
    = match find "body" empty_soup with
      | Some body => slice_to (get_text " " body) 1000
      | None => content_not_available
      end.
Proof.
  split; [eexists; split_and!; reflexivity|].
  split; [by_evaluation|].
  apply (body_fallback (serving story_url empty_page) html_parser
           story_url 1000 empty_soup).
  - eexists; split_and!; reflexivity.
  - by_evaluation.
Defined.

(** C4, as stated, fails on a page whose body is empty: the empty string
    is returned, not the sentinel. *)
Lemma empty_body_gives_empty_string :
  fetched (serving story_url empty_page) html_parser story_url empty_soup
  ∧ no_content_element empty_soup
  ∧ get_text " " <$> find "body" empty_soup = Some ""
  ∧ fetch_article_content (serving story_url empty_page) html_parser
      story_url 1000 ≠ content_not_available.
Proof.
  split; [apply empty_page_fetched|].
  split; [by_evaluation|].
  split; [reflexivity|].
  by vm_compute.
Qed.

Lemma content_priority_witness :
  fetched (serving story_url div_page) html_parser story_url div_soup
  ∧ fetch_article_content (serving story_url div_page) html_parser
      story_url 1000
    = match priority_content div_soup with
      | Ok content => slice_to content 1000
      | Raise _ => content_not_available
      end.
Proof.
  split; [eexists; split_and!; reflexivity|].
  apply (content_priority (serving story_url div_page) html_parser
           story_url 1000 div_soup).
  eexists; split_and!; reflexivity.
Defined.

(** C9, as stated, fails: the specified order picks the [section] of class
    content; the code looks at [div] elements only and falls through to
    the body. *)
Lemma content_class_on_section_skipped :
  fetched (serving story_url section_page) html_parser story_url section_soup
  ∧ priority_as_specified section_soup = Some "Hello"
  ∧ fetch_article_content (serving story_url section_page) html_parser
      story_url 1000 = "Nav Hello"
  ∧ Some (fetch_article_content (serving story_url section_page) html_parser
            story_url 1000) ≠ priority_as_specified section_soup.
Proof.
  split; [eexists; split_and!; reflexivity|].
  split; [reflexivity|]. split; [reflexivity|]. by vm_compute.
Qed.

(** C2.  The specification's scenario with the linked page out of reach:
    the cleaned description is "Short", and the item comes back with the
    sentinel of [fetch_article_content] in its place. *)
Theorem failed_enrichment_overwrites_description :
  requests_get_fails offline story_url
  ∧ clean_html html_parser (raw_description short_entry) = "Short"
  ∧ (λ item : gmap string string, item !! "description")
      <$> fetch_news offline html_parser (feed_of [short_entry]) feed_url
    = [Some "Content not available"].
Proof. split; [by eexists|]. split; reflexivity. Qed.

Lemma fetch_news_item_fields_witness :
  item_of (serving story_url article_page) html_parser short_entry
    ∈ fetch_news (serving story_url article_page) html_parser
        (feed_of [short_entry]) feed_url
  ∧ ∃ fd entry,
      feed_of [short_entry] feed_url = Ok fd ∧ entry ∈ entries fd
      ∧ item_of (serving story_url article_page) html_parser short_entry
          !! "title" = Some (default "No title" (entry !! "title"))
      ∧ item_of (serving story_url article_page) html_parser short_entry
          !! "link" = Some (default "#" (entry !! "link"))
      ∧ ∃ d, item_of (serving story_url article_page) html_parser short_entry
               !! "description" = Some d
             ∧ ((100 ≤ len (clean_html html_parser (raw_description entry)))%Z →
                d = clean_html html_parser (raw_description entry))
             ∧ ((len (clean_html html_parser (raw_description entry)) < 100)%Z →
                ∀ sp content,
                  fetched (serving story_url article_page) html_parser
                    (default "#" (entry !! "link")) sp →
                  main_content sp = Ok content →
                  d = slice_to content 1000).
Proof.
  split; [vm_compute; left|].
  apply (fetch_news_item_fields (serving story_url article_page) html_parser
           (feed_of [short_entry]) feed_url).
  vm_compute; left.
Defined.

(** The entry of that item is short, its page is fetched, and the main
    content of the page is the text of its article. *)
Lemma short_entry_enriched :
  (len (clean_html html_parser (raw_description short_entry)) < 100)%Z
  ∧ fetched (serving story_url article_page) html_parser
      (default "#" (short_entry !! "link")) article_soup
  ∧ main_content article_soup = Ok "Full article body text"
  ∧ item_of (serving story_url article_page) html_parser short_entry
      !! "description" = Some "Full article body text".
Proof.
  split; [by vm_compute|]. split; [eexists; split_and!; reflexivity|].
  split; reflexivity.
Qed.

(** An entry of 100 characters or more keeps its cleaned text. *)
Lemma long_entry_kept :
  (100 ≤ len (clean_html html_parser (raw_description long_entry)))%Z
  ∧ item_of (serving story_url article_page) html_parser long_entry
      !! "description" = Some long_text.
Proof. split; [by vm_compute|reflexivity]. Qed.

(** C7, as stated, fails: an entry whose title is present and empty keeps
    the empty title. *)
Lemma empty_title_kept :
  ¬ Forall fields_non_empty
      (fetch_news offline html_parser (feed_of [untitled_entry]) feed_url).
Proof.
  assert (fetch_news offline html_parser (feed_of [untitled_entry]) feed_url
          = [item_of offline html_parser untitled_entry]) as -> by reflexivity.
  intros [Hitem _]%Forall_cons. unfold fields_non_empty in Hitem.
  apply Forall_cons in Hitem as [(v & Hv & Hne) _].
  rewrite item_of_title in Hv. by simplify_eq/=.
Qed.


(** The escaped entry has more than 100 characters of text and its text
    holds a "<". *)
Lemma escaped_entry_long_with_markup :
  (100 ≤ len (clean_html html_parser (raw_description escaped_entry)))%Z
  ∧ has_markup (soup_get_text " " escaped_soup).
Proof. split; [by vm_compute|reflexivity]. Qed.

(** Markup that reaches a description through enrichment: the article of
    the linked page holds an escaped tag. *)
Lemma enriched_markup_from_page :
  fetch_article_content (serving story_url "<article>&lt;i&gt;Late&lt;/i&gt; edition</article>")
    (parser {[ "<article>&lt;i&gt;Late&lt;/i&gt; edition</article>"
               := [Tag "article" [] [NavigableString "<i>Late</i> edition"]] ]})
    story_url 1000
  = "<i>Late</i> edition".
Proof. reflexivity. Qed.


(** A page without a body element and without other content: the lookup
    of the body raises, and the sentinel is returned. *)
Lemma no_body_gives_sentinel :
  fetch_article_content (serving story_url bare_page) html_parser
    story_url 1000 = content_not_available.
Proof. reflexivity. Qed.

(** The specification's scenario: the short description of the entry is
    replaced by the text of the article on the linked page. *)
Lemma short_description_enriched :
  (λ item : gmap string string, item !! "description")
    <$> fetch_news (serving story_url article_page) html_parser
          (feed_of [short_entry]) feed_url
  = [Some "Full article body text"].
Proof. reflexivity. Qed.

End NewsFetcherCases.

(** ** The summarizer *)

Module SummarizerFacts.

Import Summarizer SummarizerSpec.

Section WithBackend.

Variable api_key : option string.
Variable tokenizer_from_pretrained : string → option string → result tokenizer_t.
Variable Model : Type.
Variable model_from_pretrained : string → option string → result Model.
Variable pipeline : string → Model → tokenizer_t → result pipeline_t.

Local Abbreviation load_summarizer :=
  (load_summarizer api_key tokenizer_from_pretrained Model
     model_from_pretrained pipeline).
Local Abbreviation summarize_text :=
  (summarize_text api_key tokenizer_from_pretrained Model
     model_from_pretrained pipeline).

(** Once a pipeline is stored, loading returns it and calls nothing. *)
Lemma load_summarizer_loaded st p :
  summarizer st = Some p → load_summarizer st = (Some p, st).
Proof.
  intros Hp. unfold Summarizer.load_summarizer, io_try_return, get_summarizer.
  simpl. unfold mbind, io_bind. by rewrite Hp; simpl; rewrite Hp.
Qed.

(** C5.  A text with fewer than [min_length] words is returned as it is,
    and the store is left as it was: the global [summarizer] is not
    assigned and no call into the model backend is made.  This holds for
    every backend. *)
Theorem summarize_text_short_identity text max_length min_length st :
  (word_count text < min_length)%Z →
  summarize_text text max_length min_length st = (text, st).
Proof.
  intros Hshort. unfold Summarizer.summarize_text, io_try_return.
  unfold word_count in Hshort. by apply Z.ltb_lt in Hshort as ->.
Qed.

(** C6.  If loading gives no pipeline, or a later stage fails (encoding,
    decoding, inference, an empty result, a result without summary),
    [summarize_text] returns the input text.  Its model is a total
    function: no exception leaves it. *)
Theorem summarize_text_failure text max_length min_length st :
  (load_summarizer st).1 = None
  ∨ (∃ p, (load_summarizer st).1 = Some p
          ∧ stage_fails p text max_length min_length) →
  (summarize_text text max_length min_length st).1 = text.
Proof.
  intros Hfail. unfold Summarizer.summarize_text, io_try_return.
  destruct (_ <? min_length)%Z; [done|].
  unfold mbind, io_bind, call_total.
  destruct (load_summarizer st) as [loaded st1]. simpl in Hfail.
  destruct Hfail as [->|(p & -> & Hstage)]; [done|].
  unfold backend, lift.
  destruct Hstage as [e He|tokens e He Hd|tokens truncated e He Hd Hc
                     |tokens truncated He Hd Hc
                     |tokens truncated first rest He Hd Hc Hk];
    rewrite He; try done; rewrite Hd; try done; rewrite Hc; try done.
  unfold getitem. by rewrite Hk.
Qed.

(** When every stage succeeds the summary of the model is returned. *)
Lemma summarize_text_success text max_length min_length st p summary :
  (min_length ≤ word_count text)%Z →
  (load_summarizer st).1 = Some p →
  stages_succeed p text max_length min_length summary →
  (summarize_text text max_length min_length st).1 = summary.
Proof.
  intros Hlong Hload (tokens & truncated & first & rest & He & Hd & Hc & Hk).
  unfold Summarizer.summarize_text, io_try_return.
  apply Z.ltb_ge in Hlong. unfold word_count in Hlong. rewrite Hlong.
  unfold mbind, io_bind, call_total.
  destruct (load_summarizer st) as [loaded st1]. simpl in Hload. subst loaded.
  unfold backend, lift. rewrite He, Hd, Hc. unfold getitem. by rewrite Hk.
Qed.

End WithBackend.

Import Scenario.

Lemma summarize_text_short_identity_witness :
  (word_count ten_words < 30)%Z
  ∧ summarize_text None hub_down unit hub_down (λ _ _ _, Ok some_pipeline)
      ten_words 150 30 fresh = (ten_words, fresh).
Proof.
  split; [by vm_compute|].
  apply (summarize_text_short_identity None hub_down unit hub_down
           (λ _ _ _, Ok some_pipeline) ten_words 150 30 fresh).
  by vm_compute.
Defined.

Lemma summarize_text_failure_witness :
  ((load_summarizer None (λ _ _, Ok some_tokenizer) unit (λ _ _, Ok ())
      (λ _ _ _, Ok failing_pipeline) fresh).1 = None
   ∨ (∃ p, (load_summarizer None (λ _ _, Ok some_tokenizer) unit (λ _ _, Ok ())
              (λ _ _ _, Ok failing_pipeline) fresh).1 = Some p
           ∧ stage_fails p ten_words 150 5))
  ∧ (summarize_text None (λ _ _, Ok some_tokenizer) unit (λ _ _, Ok ())
       (λ _ _ _, Ok failing_pipeline) ten_words 150 5 fresh).1 = ten_words.
Proof.
  assert (stage_fails failing_pipeline ten_words 150 5) as Hstage.
  { by eapply inference_fails. }
  split.
  - right. exists failing_pipeline. split; [reflexivity|exact Hstage].
  - apply (summarize_text_failure None (λ _ _, Ok some_tokenizer) unit
             (λ _ _, Ok ()) (λ _ _ _, Ok failing_pipeline) ten_words 150 5 fresh).
    right. exists failing_pipeline. split; [reflexivity|exact Hstage].
Defined.

End SummarizerFacts.

(** ** The voice generator *)

Module VoiceGeneratorFacts.

Import VoiceGenerator VoiceGeneratorSpec.

(** A temporary name is not the empty string. *)
Lemma temp_path_truthy dir r suffix : truthy (temp_path dir r suffix) = true.
Proof.
  unfold temp_path, path_join. destruct dir as [|c dir]; [reflexivity|].
  by destruct (truthy (String c dir) && negb (ends_with_sep (String c dir))).
Qed.

Section WithSystem.

Variable mkdir_permitted : string → bool.
Variable write_permitted : string → bool.
Variable dir_size : string → Z.
Variable gettempdir : string.
Variable TMP_MAX : positive.
Variable mkstemp_draw : nat → option string.
Variable import_TTS : result unit.
Variable api_key : option string.
Variable cuda_is_available : bool.
Variable TTS : string → option string → string → result tts_t.
Variable AUDIO_PROCESSING_AVAILABLE : bool.
Variable normalize : string → result string.

Local Abbreviation makedirs := (makedirs mkdir_permitted).
Local Abbreviation mkstemp_from := (mkstemp_from gettempdir mkstemp_draw).
Local Abbreviation mkstemp := (mkstemp gettempdir TMP_MAX mkstemp_draw).
Local Abbreviation temp_path := (temp_path gettempdir).
Local Abbreviation write_file := (write_file write_permitted).
Local Abbreviation load_tts_model := (load_tts_model import_TTS).
Local Abbreviation get_reference_audio_path :=
  (get_reference_audio_path mkdir_permitted).
Local Abbreviation process_audio :=
  (process_audio write_permitted dir_size AUDIO_PROCESSING_AVAILABLE normalize).
Local Abbreviation synthesis :=
  (synthesis mkdir_permitted write_permitted dir_size gettempdir TMP_MAX mkstemp_draw import_TTS
     api_key cuda_is_available TTS AUDIO_PROCESSING_AVAILABLE normalize).
Local Abbreviation placeholder_on_error := (placeholder_on_error gettempdir TMP_MAX mkstemp_draw).
Local Abbreviation generate_voice_clone :=
  (generate_voice_clone mkdir_permitted write_permitted dir_size gettempdir TMP_MAX mkstemp_draw
     import_TTS api_key cuda_is_available TTS AUDIO_PROCESSING_AVAILABLE
     normalize).

(** *** File-system primitives *)

(** The two ways out of the loop of [mkstemp]: a file was created under a
    candidate name that was free, or an exception was raised and the file
    system is as before.  Names are only drawn, never given back. *)
Lemma mkstemp_from_cases attempts suffix : ∀ st,
  drawn st ≤ drawn (mkstemp_from attempts suffix st).2
  ∧ ((∃ r, (mkstemp_from attempts suffix st).1 = Ok (temp_path r suffix)
           ∧ fs st !! temp_path r suffix = None
           ∧ fs (mkstemp_from attempts suffix st).2
             = <[temp_path r suffix := File ""]> (fs st))
     ∨ (∃ e, (mkstemp_from attempts suffix st).1 = Raise e
             ∧ fs (mkstemp_from attempts suffix st).2 = fs st)).
Proof.
  induction attempts as [|attempts IH]; intros st; simpl.
  { split; [done|]. right. by eexists. }
  destruct (mkstemp_draw (drawn st)) as [r|] eqn:Hdraw; simpl.
  2: { split; [lia|]. right. by eexists. }
  destruct (fs st !! temp_path r suffix) as [x|] eqn:Hfree; simpl.
  - destruct (IH {| fs := fs st; drawn := S (drawn st) |}) as [Hd Hcases].
    simpl in *. split; [lia|done].
  - split; [lia|]. left. by exists r.
Qed.

Lemma mkstemp_cases suffix st :
  drawn st ≤ drawn (mkstemp suffix st).2
  ∧ ((∃ r, (mkstemp suffix st).1 = Ok (temp_path r suffix)
           ∧ fs st !! temp_path r suffix = None
           ∧ fs (mkstemp suffix st).2
             = <[temp_path r suffix := File ""]> (fs st))
     ∨ (∃ e, (mkstemp suffix st).1 = Raise e
             ∧ fs (mkstemp suffix st).2 = fs st)).
Proof. apply mkstemp_from_cases. Qed.

Lemma mkstemp_Ok suffix st path st' :
  mkstemp suffix st = (Ok path, st') →
  fs st !! path = None ∧ fs st' = <[path := File ""]> (fs st).
Proof.
  intros Htmp.
  destruct (mkstemp_cases suffix st)
    as [_ [(r & Hr & Hfree & Hfs)|(e & He & _)]]; rewrite Htmp in *; simpl in *;
    [|done].
  by injection Hr as ->.
Qed.

(** The first candidate is taken when its name is free. *)
Lemma mkstemp_first suffix st r :
  mkstemp_draw (drawn st) = Some r →
  fs st !! temp_path r suffix = None →
  mkstemp suffix st
  = (Ok (temp_path r suffix),
     {| fs := <[temp_path r suffix := File ""]> (fs st);
        drawn := S (drawn st) |}).
Proof.
  intros Hdraw Hfree. unfold VoiceGenerator.mkstemp.
  destruct (Pos2Nat.is_succ TMP_MAX) as [n ->]. simpl.
  by rewrite Hdraw, Hfree.
Qed.

Lemma write_file_Ok path data st st' :
  write_file path data st = (Ok (), st') →
  fs st' = <[path := File data]> (fs st).
Proof.
  unfold VoiceGenerator.write_file.
  destruct (fs st !! path) as [[d|]|]; try done;
    destruct (write_permitted path); try done; by intros [= <-].
Qed.

(** [makedirs] either leaves the store as it is, or adds the directory. *)
Lemma makedirs_effect path st :
  (makedirs path st).2
  = match fs st !! path with
    | None => if mkdir_permitted path then with_fs (insert path Dir) st else st
    | Some _ => st
    end.
Proof.
  unfold VoiceGenerator.makedirs.
  destruct (fs st !! path) as [[d|]|]; try done.
  by destruct (mkdir_permitted path).
Qed.

(** *** [get_reference_audio_path] *)

(** The [else] branch of lines 73-87. *)
Lemma no_reference_branch st :
  io_try_return (_ ← makedirs "reference_audio"; mret (@None string))
    (λ _ st', (None, st')) st
  = (None, (makedirs "reference_audio" st).2).
Proof.
  unfold io_try_return, mbind, io_bind.
  by destruct (makedirs "reference_audio" st) as [[[]|e] st'].
Qed.

(** C10 (amended).  [get_reference_audio_path] returns the mapped path
    exactly when the celebrity is in the fixed table and something exists
    at that path, and then leaves the file system as it is.  In every other
    case it returns [None] after [os.makedirs("reference_audio",
    exist_ok=True)]: the directory is created when nothing exists under
    that name and the creation is permitted; when something is there
    already, or the creation is refused, the file system is left as it
    is. *)
Theorem get_reference_audio_path_effect celebrity st :
  (∀ path, (get_reference_audio_path celebrity st).1 = Some path
           ↔ reference_files !! celebrity = Some path
             ∧ path_exists path st = true)
  ∧ (is_Some (get_reference_audio_path celebrity st).1 →
     (get_reference_audio_path celebrity st).2 = st)
  ∧ ((get_reference_audio_path celebrity st).1 = None →
     (get_reference_audio_path celebrity st).2
     = match fs st !! "reference_audio" with
       | None => if mkdir_permitted "reference_audio"
                 then with_fs (insert "reference_audio" Dir) st else st
       | Some _ => st
       end).
Proof.
  unfold VoiceGenerator.get_reference_audio_path.
  destruct (reference_files !! celebrity) as [mapped|] eqn:Hmap.
  - destruct (path_exists mapped st) eqn:Hex.
    + simpl. split_and!; [|done|done].
      intros path. split; [by intros [= <-]|by intros [[= <-] _]].
    + rewrite no_reference_branch. simpl. split_and!.
      * intros path. split; [done|]. intros [[= <-] Hex']. congruence.
      * by intros [? ?].
      * intros _. apply makedirs_effect.
  - rewrite no_reference_branch. simpl. split_and!.
    + intros path. split; [done|by intros [? _]].
    + by intros [? ?].
    + intros _. apply makedirs_effect.
Qed.

(** *** [process_audio] *)

(** Whatever happens during normalization, the file stays a file. *)
Lemma process_audio_keeps_file path st data :
  fs st !! path = Some (File data) →
  ∃ data', fs (process_audio path st).2 !! path = Some (File data').
Proof.
  intros Hfile. unfold VoiceGenerator.process_audio.
  destruct AUDIO_PROCESSING_AVAILABLE; simpl; [|by exists data].
  unfold io_try_return, io_try, mbind, io_bind, exists_, getsize, read_file,
    lift, path_exists.
  rewrite bool_decide_eq_true_2 by (rewrite Hfile; by eexists). simpl.
  rewrite Hfile. simpl.
  destruct (len data =? 0)%Z; simpl; [by exists data|].
  rewrite Hfile.
  destruct (normalize data) as [normalized|e]; simpl; [|by exists data].
  unfold VoiceGenerator.write_file. rewrite Hfile.
  destruct (write_permitted path); simpl; [|by exists data].
  exists normalized. by rewrite lookup_insert_eq.
Qed.

(** Normalization leaves the content of a file, or replaces a non-empty
    content by what the normalizer made of it. *)
Lemma process_audio_content path st data :
  fs st !! path = Some (File data) →
  fs (process_audio path st).2 !! path = Some (File data)
  ∨ ∃ normalized,
      data ≠ "" ∧ normalize data = Ok normalized
      ∧ fs (process_audio path st).2 !! path = Some (File normalized).
Proof.
  intros Hfile. unfold VoiceGenerator.process_audio.
  destruct AUDIO_PROCESSING_AVAILABLE; simpl; [|by left].
  unfold io_try_return, io_try, mbind, io_bind, exists_, getsize, read_file,
    lift, path_exists.
  rewrite bool_decide_eq_true_2 by (rewrite Hfile; by eexists). simpl.
  rewrite Hfile. simpl.
  destruct (len data =? 0)%Z eqn:Hsize; simpl; [by left|].
  rewrite Hfile.
  destruct (normalize data) as [normalized|e] eqn:Hnorm; simpl; [|by left].
  unfold VoiceGenerator.write_file. rewrite Hfile.
  destruct (write_permitted path); simpl; [|by left].
  right. exists normalized. split_and!; [|done|by rewrite lookup_insert_eq].
  intros ->. by vm_compute in Hsize.
Qed.

(** *** [generate_voice_clone] *)

Lemma len_unavailable_message : len unavailable_message = 74%Z.
Proof. reflexivity. Qed.

Lemma len_pos s : s ≠ "" → (0 < len s)%Z.
Proof. destruct s; [done|]. intros _. unfold len. simpl. lia. Qed.

(** The handler returns a new empty file, or [None]. *)
Lemma placeholder_on_error_outcome st :
  (placeholder_on_error st).1 = None
  ∨ ∃ path, (placeholder_on_error st).1 = Some path
            ∧ fs (placeholder_on_error st).2 !! path = Some (File "").
Proof.
  unfold VoiceGenerator.placeholder_on_error, io_try_return, mbind, io_bind.
  destruct (mkstemp ".wav" st) as [[path|e] st'] eqn:Htmp; simpl; [|by left].
  right. exists path. split; [done|].
  apply mkstemp_Ok in Htmp as [_ ->]. by rewrite lookup_insert_eq.
Qed.

(** When the [try] block ends normally, it returns the path of a file that
    exists; without the [TTS] package that file holds the message. *)
Lemma synthesis_Ok text celebrity st r st1 :
  synthesis text celebrity st = (Ok r, st1) →
  ∃ path data, r = Some path ∧ fs st1 !! path = Some (File data)
               ∧ (load_tts_model = false → data = unavailable_message).
Proof.
  unfold VoiceGenerator.synthesis.
  destruct load_tts_model eqn:Havail; simpl.
  - (* the package is installed *)
    unfold mbind, io_bind, mret, io_ret, lift, call_total.
    destruct import_TTS as [[]|e]; [|done].
    destruct (if truthy_opt api_key then _ else _) as [tts_model|e]; [|done].
    destruct (get_reference_audio_path celebrity st) as [reference st2].
    destruct (mkstemp ".wav" st2) as [[path|e] st3] eqn:Htmp; [|done].
    destruct (truthy_opt reference).
    all: destruct (synthesize tts_model text _ "en") as [audio|e]; [|done].
    all: destruct (write_file path audio st3) as [[[]|e] st4] eqn:Hw; [|done].
    all: apply write_file_Ok in Hw.
    all: assert (fs st4 !! path = Some (File audio)) as Hfile
           by (by rewrite Hw, lookup_insert_eq).
    all: pose proof (process_audio_keeps_file path st4 audio Hfile) as Hkeep.
    all: destruct AUDIO_PROCESSING_AVAILABLE; simpl.
    all: try (destruct Hkeep as [data' Hdata'];
              destruct (VoiceGenerator.process_audio _ _ _ _ path st4)
                as [[] st'];
              intros [= <- <-]; exists path, data'; by split_and!).
    all: intros [= <- <-]; exists path, audio; by split_and!.
  - (* the package is missing *)
    unfold mbind, io_bind.
    destruct (mkstemp ".wav" st) as [[path|e] st2] eqn:Htmp; [|done].
    destruct (write_file path unavailable_message st2) as [[[]|e] st3] eqn:Hw;
      [|done].
    intros [= <- <-]. apply write_file_Ok in Hw.
    exists path, unavailable_message. split_and!; [done| |done].
    by rewrite Hw, lookup_insert_eq.
Qed.

(** With the package, the file the [try] block returns holds what the
    voice model wrote for the text, in English, or the normalized form of
    these bytes. *)
Lemma synthesis_Ok_available text celebrity st r st1 :
  load_tts_model = true →
  synthesis text celebrity st = (Ok r, st1) →
  ∃ path data tts_model speaker audio,
    r = Some path ∧ fs st1 !! path = Some (File data)
    ∧ TTS xtts_v2 (if truthy_opt api_key then api_key else None)
        (if cuda_is_available then "cuda" else "cpu") = Ok tts_model
    ∧ synthesize tts_model text speaker "en" = Ok audio
    ∧ (data = audio ∨ (audio ≠ "" ∧ normalize audio = Ok data)).
Proof.
  intros Havail. unfold VoiceGenerator.synthesis. rewrite Havail. simpl.
  unfold mbind, io_bind, mret, io_ret, lift, call_total.
  destruct import_TTS as [[]|e]; [|done].
  destruct (if truthy_opt api_key then _ else _) as [tts_model|e] eqn:Hload;
    [|done].
  assert (TTS xtts_v2 (if truthy_opt api_key then api_key else None)
            (if cuda_is_available then "cuda" else "cpu") = Ok tts_model)
    as Hmodel by (by destruct (truthy_opt api_key)).
  destruct (get_reference_audio_path celebrity st) as [reference st2].
  destruct (mkstemp ".wav" st2) as [[path|e] st3] eqn:Htmp; [|done].
  destruct (truthy_opt reference).
  all: destruct (synthesize tts_model text _ "en") as [audio|e] eqn:Hspeech;
    [|done].
  all: destruct (write_file path audio st3) as [[[]|e] st4] eqn:Hw; [|done].
  all: apply write_file_Ok in Hw.
  all: assert (fs st4 !! path = Some (File audio)) as Hfile
         by (by rewrite Hw, lookup_insert_eq).
  all: pose proof (process_audio_content path st4 audio Hfile) as Hkeep.
  all: destruct AUDIO_PROCESSING_AVAILABLE; simpl.
  all: try (destruct (VoiceGenerator.process_audio _ _ _ _ path st4)
              as [[] st'] eqn:Hprocess; simpl in Hkeep).
  all: intros [= <- <-].
  all: try (destruct Hkeep as [Hsame|(normalized & Hne & Hnorm & Hnew)];
            [exists path, audio, tts_model; eexists; exists audio;
             by split_and!; [..|exact Hspeech|left]
            |exists path, normalized, tts_model; eexists; exists audio;
             by split_and!; [..|exact Hspeech|right]]).
  all: exists path, audio, tts_model; eexists; exists audio;
    by split_and!; [..|exact Hspeech|left].
Qed.

(** Without the package, the placeholder is written whenever a temporary
    file can be created and written. *)
Lemma synthesis_unavailable text celebrity st r :
  load_tts_model = false →
  mkstemp_draw (drawn st) = Some r →
  fs st !! temp_path r ".wav" = None →
  write_permitted (temp_path r ".wav") = true →
  ∃ st1, synthesis text celebrity st
         = (Ok (Some (temp_path r ".wav")), st1).
Proof.
  intros Havail Hdraw Hfree Hwrite. unfold VoiceGenerator.synthesis.
  rewrite Havail. simpl. unfold mbind, io_bind.
  rewrite (mkstemp_first ".wav" st r Hdraw Hfree).
  unfold VoiceGenerator.write_file. simpl.
  rewrite lookup_insert_eq, Hwrite. by eexists.
Qed.

(** An exception while the model is loaded leaves the [try] block. *)
Lemma synthesis_model_error text celebrity st e :
  import_TTS = Ok () →
  TTS xtts_v2 (if truthy_opt api_key then api_key else None)
    (if cuda_is_available then "cuda" else "cpu") = Raise e →
  synthesis text celebrity st = (Raise e, st).
Proof.
  intros Himport Hload. unfold VoiceGenerator.synthesis,
    VoiceGenerator.load_tts_model.
  rewrite Himport. simpl. unfold mbind, io_bind, lift.
  destruct (truthy_opt api_key); by rewrite Hload.
Qed.

End WithSystem.

End VoiceGeneratorFacts.

Module VoiceGeneratorCases.

Import VoiceGenerator VoiceGeneratorSpec VoiceGeneratorFacts Scenario.

(** The specification's scenario: without the [TTS] package the caller
    gets a file that holds the message. *)
Lemma unavailable_gives_message :
  usable (generate_voice_clone permitted permitted block_size tmp_dir tmp_max draw
            not_installed None false model_missing false (λ s, Ok s)
            "hello" "Morgan Freeman" empty_disk).
Proof.
  exists "/tmp/tmpk3x9q2.wav", unavailable_message.
  split_and!; [reflexivity|reflexivity|by vm_compute].
Qed.

(** C1, as stated, fails: the package is installed and loading the model
    raises; the caller gets the path of an empty file. *)
Lemma model_error_gives_empty_file :
  ¬ usable (generate_voice_clone permitted permitted block_size tmp_dir tmp_max draw
              (Ok ()) None false model_missing false (λ s, Ok s)
              "hello" "Morgan Freeman" empty_disk).
Proof.
  intros (path & data & Hpath & Hfile & Hsize).
  vm_compute in Hpath. injection Hpath as <-.
  vm_compute in Hfile. injection Hfile as <-.
  by vm_compute in Hsize.
Qed.

(** No temporary file can be created at all: [None] is returned. *)
Lemma no_temporary_file_gives_None :
  (generate_voice_clone permitted permitted block_size tmp_dir tmp_max (λ _, None)
     (Ok ()) None false model_missing false (λ s, Ok s)
     "hello" "Morgan Freeman" empty_disk).1 = None.
Proof. reflexivity. Qed.

(** A candidate name that is taken is passed over: the file is created
    under the next one, and the file that was there is left alone. *)
Lemma taken_name_passed_over :
  mkstemp tmp_dir tmp_max draw ".wav"
    {| fs := {[ "/tmp/tmpk3x9q2.wav" := File "old" ]}; drawn := 0 |}
  = (Ok "/tmp/tmpp7m2zc.wav",
     {| fs := <["/tmp/tmpp7m2zc.wav" := File ""]>
              {[ "/tmp/tmpk3x9q2.wav" := File "old" ]};
        drawn := 2 |}).
Proof. by vm_compute. Qed.

(** The voice model and the normalizer of the scenarios never write an
    empty file, and with them the caller gets a file that can be played. *)
Lemma talking_backend_writes_audio :
  writes_audio MoreScenario.talking_tts (λ s, Ok s).
Proof.
  split.
  - intros ? ? ? tts_model ? ? ? audio [= <-] [= <-]. done.
  - intros audio normalized Haudio [= <-]. done.
Qed.

Lemma speech_is_usable :
  usable (generate_voice_clone permitted permitted block_size tmp_dir tmp_max
            draw (Ok ()) None false MoreScenario.talking_tts true (λ s, Ok s)
            "hello" "Morgan Freeman" disk_with_sample).
Proof.
  exists "/tmp/tmpk3x9q2.wav", "RIFFdata".
  split_and!; [reflexivity|by vm_compute|by vm_compute].
Qed.

(** C10, as stated, fails: a regular file has the name of the sample
    directory; [None] is returned, and there is no directory afterwards. *)
Lemma blocked_name_no_directory :
  (get_reference_audio_path permitted "Morgan Freeman" blocked_disk).1 = None
  ∧ ¬ reference_dir_exists blocked_disk
  ∧ ¬ reference_dir_exists
        (get_reference_audio_path permitted "Morgan Freeman" blocked_disk).2.
Proof. split; [reflexivity|]. split; by vm_compute. Qed.

(** The sample is in place: its path is returned. *)
Lemma sample_found :
  get_reference_audio_path permitted "Morgan Freeman" disk_with_sample
  = (Some "reference_audio/morgan_freeman.wav", disk_with_sample).
Proof. reflexivity. Qed.

(** Nothing is there yet: the directory is created. *)
Lemma directory_created :
  reference_dir_exists
    (get_reference_audio_path permitted "Emma Watson" empty_disk).2.
Proof. reflexivity. Qed.

End VoiceGeneratorCases.

(** ** Further properties of the news fetcher *)

Module NewsFetcherMore.

Import NewsFetcher NewsFetcherSpec NewsFetcherFacts MoreSpec.

(** *** Stripped strings *)

Lemma lstrip_head_kept s : head_kept (lstrip s).
Proof.
  induction s as [|c s IH]; simpl; [done|].
  destruct (isspace c) eqn:Hc; [exact IH|exact Hc].
Qed.

Lemma lstrip_id s : head_kept s → lstrip s = s.
Proof. destruct s as [|c s]; simpl; [done|]. by intros ->. Qed.

Lemma rstrip_idem s : rstrip (rstrip s) = rstrip s.
Proof.
  induction s as [|c s IH]; simpl; [done|].
  destruct (rstrip s) as [|d r] eqn:Hr.
  - destruct (isspace c) eqn:Hc; simpl; [done|]. by rewrite Hc.
  - simpl in IH. simpl. destruct (rstrip r) as [|e r'] eqn:Hr'.
    + destruct (isspace d); simplify_eq/=; done.
    + by simplify_eq/=.
Qed.

Lemma rstrip_head_kept s : head_kept s → head_kept (rstrip s).
Proof.
  destruct s as [|c s]; simpl; [done|]. intros Hc.
  destruct (rstrip s); [by rewrite Hc|done].
Qed.

(** What [strip] returns is left alone by [strip]. *)
Lemma strip_tidy s : head_kept (strip s) ∧ rstrip (strip s) = strip s.
Proof.
  unfold strip. split.
  - apply rstrip_head_kept, lstrip_head_kept.
  - apply rstrip_idem.
Qed.

Lemma app_empty p q : p +:+ q = "" → p = "" ∧ q = "".
Proof. destruct p; [done|]. intros H. discriminate H. Qed.

Lemma rstrip_app_keep p q :
  q ≠ "" → rstrip q = q → rstrip (p +:+ q) = p +:+ q.
Proof.
  intros Hne Hq. induction p as [|c p IH]; [done|].
  change (String c p +:+ q) with (String c (p +:+ q)). simpl.
  rewrite IH. destruct (p +:+ q) as [|d r] eqn:Hpq; [|done].
  by apply app_empty in Hpq as [_ ?].
Qed.

Lemma join_tidy parts :
  Forall (λ p, p ≠ "" ∧ head_kept p ∧ rstrip p = p) parts →
  head_kept (join " " parts) ∧ rstrip (join " " parts) = join " " parts
  ∧ (parts ≠ [] → join " " parts ≠ "").
Proof.
  induction parts as [|p ps IH]; [done|].
  intros [(Hne & Hhead & Htail) Hps]%Forall_cons.
  destruct ps as [|q ps]; [done|].
  destruct (IH Hps) as (_ & Hrest & Hfull).
  specialize (Hfull ltac:(done)).
  change (join " " (p :: q :: ps)) with (p +:+ " " +:+ join " " (q :: ps)).
  split_and!.
  - destruct p; [done|exact Hhead].
  - rewrite rstrip_app_keep; [done| |].
    + by intros [? _]%app_empty.
    + by rewrite rstrip_app_keep.
  - intros _ [? _]%app_empty. done.
Qed.

(** The text extracted with [strip=True] and a one-space separator has no
    whitespace at its ends. *)
Lemma text_of_tidy ss : strip (text_of " " ss) = text_of " " ss.
Proof.
  unfold text_of.
  destruct (join_tidy (filter (λ s, truthy s = true) (strip <$> ss)))
    as (Hhead & Htail & _).
  { apply Forall_forall. intros p [Hp Hin]%list_elem_of_filter.
    apply list_elem_of_fmap in Hin as (s & -> & _).
    destruct (strip_tidy s) as [? ?].
    split_and!; [|done..]. intros Heq. by rewrite Heq in Hp. }
  unfold strip at 1. by rewrite (lstrip_id _ Hhead).
Qed.

Section WithNetwork.

Variable requests_get : string → result response.
Variable BeautifulSoup : string → result soup.
Variable feedparser_parse : string → result feed.

Local Abbreviation clean_html := (clean_html BeautifulSoup).
Local Abbreviation fetch_article_content :=
  (fetch_article_content requests_get BeautifulSoup).
Local Abbreviation fetch_news :=
  (fetch_news requests_get BeautifulSoup feedparser_parse).
Local Abbreviation item_of := (item_of requests_get BeautifulSoup).

(** X1.  [fetch_news] returns the empty list when the feed cannot be
    parsed (an exception, or a feed with [bozo_exception]); otherwise it
    returns exactly one item per entry, in the order of the feed, each one
    computed from its entry alone.  No entry is dropped, whatever happens
    while its description is enriched. *)
Theorem fetch_news_one_item_per_entry rss_url :
  fetch_news rss_url
  = match feedparser_parse rss_url with
    | Ok fd =>
        if bool_decide (is_Some (bozo_exception fd)) then []
        else item_of <$> entries fd
    | Raise _ => []
    end
  ∧ length (fetch_news rss_url)
    = match feedparser_parse rss_url with
      | Ok fd =>
          if bool_decide (is_Some (bozo_exception fd)) then 0
          else length (entries fd)
      | Raise _ => 0
      end.
Proof.
  unfold NewsFetcher.fetch_news.
  destruct (feedparser_parse rss_url) as [fd|e]; simpl; [|done].
  case_bool_decide; simpl; [done|].
  rewrite entries_loop_items. simpl. by rewrite length_fmap.
Qed.

Lemma item_of_dom entry :
  dom (item_of entry)
  = ({[ "title"; "link"; "description"; "published" ]} : gset string).
Proof.
  unfold NewsFetcherSpec.item_of, NewsFetcher.new_item.
  destruct (len _ <? 100)%Z; rewrite !dom_insert_L, dom_empty_L; set_solver.
Qed.

(** X2.  Every item returned by [fetch_news] has exactly the four keys
    title, link, description and published; in particular it never carries
    a summary. *)
Theorem fetch_news_item_keys rss_url item :
  item ∈ fetch_news rss_url →
  dom item = ({[ "title"; "link"; "description"; "published" ]} : gset string)
  ∧ item !! "summary" = None.
Proof.
  intros (fd & entry & _ & _ & ->)%fetch_news_elem.
  split; [apply item_of_dom|].
  unfold NewsFetcherSpec.item_of, NewsFetcher.new_item.
  destruct (len _ <? 100)%Z; by simplify_map_eq.
Qed.

(** X3.  A description of fewer than 100 characters in a returned item is
    never feed text: it is what [fetch_article_content] returned for the
    link of that same item, with the default [max_length] of 1000. *)
Theorem short_description_is_fetched rss_url item d link :
  item ∈ fetch_news rss_url →
  item !! "description" = Some d →
  item !! "link" = Some link →
  (len d < 100)%Z →
  d = fetch_article_content link 1000.
Proof.
  intros (fd & entry & _ & _ & ->)%fetch_news_elem.
  rewrite item_of_description, item_of_link. intros [= <-] [= <-].
  destruct (len _ <? 100)%Z eqn:Hshort; [done|].
  apply Z.ltb_ge in Hshort. lia.
Qed.

(** X4.  A response with a 4xx or 5xx status gives the sentinel, whatever
    body came with it and whatever [max_length] is. *)
Theorem http_error_gives_sentinel url max_length r :
  requests_get url = Ok r →
  (400 ≤ status_code r < 600)%Z →
  fetch_article_content url max_length = content_not_available.
Proof.
  intros Hr [Hlo Hhi]. unfold NewsFetcher.fetch_article_content.
  rewrite Hr. simpl. unfold raise_for_status.
  apply Z.leb_le in Hlo. apply Z.ltb_lt in Hhi. by rewrite Hlo, Hhi.
Qed.

(** X5.  When the parser accepts its input, the text [clean_html] returns
    has no whitespace at its start or end. *)
Theorem clean_html_stripped html_text sp :
  BeautifulSoup html_text = Ok sp →
  strip (clean_html html_text) = clean_html html_text.
Proof.
  intros Hsp. unfold NewsFetcher.clean_html. rewrite Hsp. simpl.
  apply text_of_tidy.
Qed.

(** X21.  Every item [fetch_news] returns has the three fields the page
    reads of an item (title, description, link), so showing a fetched list
    never fails on a missing key. *)
Theorem fetched_item_displayable rss_url item :
  item ∈ fetch_news rss_url → displayable item.
Proof.
  intros (fd & entry & _ & _ & ->)%fetch_news_elem. unfold displayable.
  rewrite item_of_title, item_of_description, item_of_link.
  by split_and!; eexists.
Qed.

End WithNetwork.

End NewsFetcherMore.

Module NewsFetcherMoreCases.

Import NewsFetcher NewsFetcherSpec NewsFetcherMore Scenario MoreScenario.

Lemma fetch_news_item_keys_witness :
  item_of offline html_parser long_entry
    ∈ fetch_news offline html_parser (feed_of [long_entry]) feed_url
  ∧ dom (item_of offline html_parser long_entry)
    = ({[ "title"; "link"; "description"; "published" ]} : gset string)
  ∧ item_of offline html_parser long_entry !! "summary" = None.
Proof.
  split; [vm_compute; left|].
  apply (fetch_news_item_keys offline html_parser (feed_of [long_entry])
           feed_url).
  vm_compute; left.
Defined.

Lemma short_description_is_fetched_witness :
  item_of (serving story_url article_page) html_parser short_entry
    ∈ fetch_news (serving story_url article_page) html_parser
        (feed_of [short_entry]) feed_url
  ∧ item_of (serving story_url article_page) html_parser short_entry
      !! "description" = Some "Full article body text"
  ∧ item_of (serving story_url article_page) html_parser short_entry
      !! "link" = Some story_url
  ∧ (len "Full article body text" < 100)%Z
  ∧ "Full article body text"
    = fetch_article_content (serving story_url article_page) html_parser
        story_url 1000.
Proof.
  split; [vm_compute; left|]. split; [reflexivity|]. split; [reflexivity|].
  split; [by vm_compute|].
  apply (short_description_is_fetched (serving story_url article_page)
           html_parser (feed_of [short_entry]) feed_url
           (item_of (serving story_url article_page) html_parser short_entry)).
  - vm_compute; left.
  - reflexivity.
  - reflexivity.
  - by vm_compute.
Defined.

Lemma http_error_gives_sentinel_witness :
  not_found story_url
  = Ok {| status_code := 404;
          text := "<html><body><article>Not Found</article></body></html>" |}
  ∧ (400 ≤ 404 < 600)%Z
  ∧ fetch_article_content not_found html_parser story_url 1000
    = content_not_available.
Proof.
  split; [reflexivity|]. split; [lia|].
  apply (http_error_gives_sentinel not_found html_parser story_url 1000
           {| status_code := 404;
              text := "<html><body><article>Not Found</article></body></html>" |}).
  - reflexivity.
  - simpl. lia.
Defined.

Lemma clean_html_stripped_witness :
  html_parser short_markup = Ok short_soup
  ∧ strip (clean_html html_parser short_markup)
    = clean_html html_parser short_markup.
Proof.
  split; [reflexivity|].
  apply (clean_html_stripped html_parser short_markup short_soup).
  reflexivity.
Defined.

Lemma fetched_item_displayable_witness :
  item_of offline html_parser long_entry
    ∈ fetch_news offline html_parser (feed_of [long_entry]) feed_url
  ∧ MoreSpec.displayable (item_of offline html_parser long_entry).
Proof.
  split; [vm_compute; left|].
  apply (fetched_item_displayable offline html_parser (feed_of [long_entry])
           feed_url).
  vm_compute; left.
Defined.

End NewsFetcherMoreCases.

(** ** Further properties of the summarizer *)

Module SummarizerMore.

Import Summarizer SummarizerSpec MoreSpec.

Section WithBackend.

Variable api_key : option string.
Variable tokenizer_from_pretrained : string → option string → result tokenizer_t.
Variable Model : Type.
Variable model_from_pretrained : string → option string → result Model.
Variable pipeline : string → Model → tokenizer_t → result pipeline_t.

Local Abbreviation load_summarizer :=
  (load_summarizer api_key tokenizer_from_pretrained Model
     model_from_pretrained pipeline).
Local Abbreviation summarize_text :=
  (summarize_text api_key tokenizer_from_pretrained Model
     model_from_pretrained pipeline).

(** What a call of [load_summarizer] does, by the stored value. *)
Lemma load_summarizer_cases st :
  (∃ p, summarizer st = Some p ∧ load_summarizer st = (Some p, st))
  ∨ (summarizer st = None
     ∧ ((∃ evs, load_summarizer st
                = (None, {| summarizer := None; trace := trace st ++ evs |})
                ∧ evs `prefix_of` load_events)
        ∨ (∃ p, load_summarizer st
                = (Some p, {| summarizer := Some p;
                              trace := trace st ++ load_events |})))).
Proof.
  destruct st as [[p|] calls]; simpl.
  - left. exists p. split; [done|].
    by apply SummarizerFacts.load_summarizer_loaded.
  - right. split; [done|].
    unfold Summarizer.load_summarizer, io_try_return, mbind, io_bind,
      get_summarizer, set_summarizer, backend. simpl.
    destruct (tokenizer_from_pretrained _ _) as [tok|e]; simpl.
    2: { left. exists [LoadTokenizer]. split; [done|by eexists]. }
    destruct (model_from_pretrained _ _) as [mdl|e]; simpl.
    2: { left. exists [LoadTokenizer; LoadModel].
         rewrite <- app_assoc. split; [done|by eexists]. }
    destruct (pipeline _ _ _) as [p|e]; simpl.
    2: { left. exists load_events.
         rewrite <- !app_assoc. split; [done|by eexists]. }
    right. exists p. by rewrite <- !app_assoc.
Qed.


(** X8.  One call of [summarize_text] appends to the calls made so far an
    initial part of: tokenizer, model and pipeline loading (only when no
    pipeline is stored), then encode, decode and inference.  So the model
    is never run before the text was encoded and decoded, it is run at most
    once, and it is never loaded again once a pipeline is stored; a stored
    pipeline is never replaced. *)
Theorem backend_calls_in_order text max_length min_length st :
  (∃ evs, trace (summarize_text text max_length min_length st).2
          = trace st ++ evs
          ∧ evs `prefix_of` calls_allowed st)
  ∧ ∀ p, summarizer st = Some p →
         summarizer (summarize_text text max_length min_length st).2 = Some p.
Proof.
  unfold Summarizer.summarize_text, io_try_return, calls_allowed.
  destruct (_ <? min_length)%Z.
  { simpl. split; [|done]. exists []. rewrite app_nil_r.
    split; [done|apply prefix_nil]. }
  unfold mbind, io_bind, call_total.
  assert (∀ p st1 before,
    trace st1 = trace st ++ before →
    summarizer st1 = Some p →
    let out :=
      (match
         (match backend Encode (encode (tokenizer p) text true 1024) st1 with
          | (Ok tokens, st2) =>
              match backend Decode (decode (tokenizer p) tokens true) st2 with
              | (Ok truncated, st3) =>
                  match backend Generate
                          (call p truncated max_length min_length false) st3
                  with
                  | (Ok summary, st4) =>
                      match summary with
                      | first :: _ => lift (getitem first "summary_text")
                      | [] => mret text
                      end st4
                  | (Raise e, st4) => (Raise e, st4)
                  end
              | (Raise e, st3) => (Raise e, st3)
              end
          | (Raise e, st2) => (Raise e, st2)
          end)
       with
       | (Ok a, st') => (a, st')
       | (Raise _, st') => (text, st')
       end) in
    (∃ evs, trace out.2 = trace st ++ before ++ evs
            ∧ evs `prefix_of` run_events)
    ∧ summarizer out.2 = Some p) as Hrun.
  { intros p st1 before Htrace Hstored. unfold backend. simpl.
    destruct (encode _ _ _ _) as [tokens|e]; simpl.
    2: { split; [|done]. exists [Encode].
         rewrite Htrace, <- app_assoc. split; [done|by eexists]. }
    destruct (decode _ _ _) as [truncated|e]; simpl.
    2: { split; [|done]. exists [Encode; Decode].
         rewrite Htrace, <- !app_assoc. split; [done|by eexists]. }
    destruct (call _ _ _ _ _) as [summary|e]; simpl.
    2: { split; [|done]. exists run_events.
         rewrite Htrace, <- !app_assoc. split; [done|by eexists]. }
    assert (∀ r : result string * state,
              r.2 = {| summarizer := summarizer st1;
                       trace := ((trace st1 ++ [Encode]) ++ [Decode])
                                ++ [Generate] |} →
              (∃ evs, trace (match r with
                             | (Ok a, st') => (a, st')
                             | (Raise _, st') => (text, st')
                             end).2 = trace st ++ before ++ evs
                      ∧ evs `prefix_of` run_events)
              ∧ summarizer (match r with
                            | (Ok a, st') => (a, st')
                            | (Raise _, st') => (text, st')
                            end).2 = Some p) as Hlast.
    { intros [[a|e] st'] Hst'; simpl in *; subst st'; simpl.
      all: split; [|done]; exists run_events.
      all: rewrite Htrace, <- !app_assoc; split; [done|by eexists]. }
    destruct summary as [|first rest]; apply Hlast; [done|].
    unfold lift. by destruct (getitem first "summary_text"). }
  destruct (load_summarizer_cases st)
    as [(p & Hp & ->)|(Hnone & [(evs & -> & Hevs)|(p & ->)])].
  - rewrite Hp.
    destruct (Hrun p st [] ltac:(by rewrite app_nil_r) Hp)
      as [(evs & Htr & Hevs) Hstored].
    split; [|by intros ? [= <-]]. by exists evs.
  - rewrite Hnone. simpl. split; [|done]. exists evs. split; [done|].
    destruct Hevs as [k Hk]. exists (k ++ run_events).
    by rewrite app_assoc, <- Hk.
  - rewrite Hnone.
    destruct (Hrun p {| summarizer := Some p;
                        trace := trace st ++ load_events |} load_events
                eq_refl eq_refl) as [(evs & Htr & [k Hk]) _].
    split; [|done]. exists (load_events ++ evs). split; [done|].
    exists k. by rewrite Hk, app_assoc.
Qed.

(** X6.  For a text of at least [min_length] words, when a pipeline is
    available and every stage succeeds, [summarize_text] returns the
    [summary_text] of the first result of the model, and the pipeline is
    stored for the next call. *)
Theorem summary_of_model_returned text max_length min_length st p summary :
  (min_length ≤ word_count text)%Z →
  (load_summarizer st).1 = Some p →
  stages_succeed p text max_length min_length summary →
  (summarize_text text max_length min_length st).1 = summary
  ∧ summarizer (summarize_text text max_length min_length st).2 = Some p.
Proof.
  intros Hlong Hload (tokens & truncated & first & rest & He & Hd & Hc & Hk).
  unfold Summarizer.summarize_text, io_try_return.
  apply Z.ltb_ge in Hlong. unfold word_count in Hlong. rewrite Hlong.
  unfold mbind, io_bind, call_total.
  destruct (load_summarizer_cases st)
    as [(q & Hq & Heq)|(Hnone & [(evs & Heq & _)|(q & Heq)])];
    rewrite Heq in Hload |- *; simpl in Hload; simplify_eq.
  all: unfold backend, lift; simpl; rewrite He; simpl; rewrite Hd; simpl.
  all: rewrite Hc; simpl; unfold getitem; by rewrite Hk.
Qed.

End WithBackend.

End SummarizerMore.

Module SummarizerMoreCases.

Import Summarizer SummarizerSpec SummarizerMore Scenario.

Lemma summary_of_model_returned_witness :
  (5 ≤ word_count ten_words)%Z
  ∧ (load_summarizer None (λ _ _, Ok some_tokenizer) unit (λ _ _, Ok ())
       (λ _ _ _, Ok some_pipeline) fresh).1 = Some some_pipeline
  ∧ stages_succeed some_pipeline ten_words 150 5 "A summary."
  ∧ (summarize_text None (λ _ _, Ok some_tokenizer) unit (λ _ _, Ok ())
       (λ _ _ _, Ok some_pipeline) ten_words 150 5 fresh).1 = "A summary."
  ∧ summarizer
      (summarize_text None (λ _ _, Ok some_tokenizer) unit (λ _ _, Ok ())
         (λ _ _ _, Ok some_pipeline) ten_words 150 5 fresh).2
    = Some some_pipeline.
Proof.
  assert (stages_succeed some_pipeline ten_words 150 5 "A summary.") as Hok.
  { by eexists _, _, _, _. }
  split; [by vm_compute|]. split; [reflexivity|]. split; [exact Hok|].
  apply (summary_of_model_returned None (λ _ _, Ok some_tokenizer) unit
           (λ _ _, Ok ()) (λ _ _ _, Ok some_pipeline) ten_words 150 5 fresh
           some_pipeline "A summary.").
  - by vm_compute.
  - reflexivity.
  - exact Hok.
Defined.

End SummarizerMoreCases.

(** ** Further properties of the voice generator *)

Module VoiceGeneratorMore.

Import VoiceGenerator VoiceGeneratorSpec VoiceGeneratorFacts MoreSpec.

(** No reference sample is expected at the name of the sample directory,
    and no expected name is empty. *)
Lemma reference_files_names celebrity path :
  reference_files !! celebrity = Some path →
  path ≠ "reference_audio" ∧ truthy path = true.
Proof.
  assert (map_Forall (λ _ p, p ≠ "reference_audio" ∧ truthy p = true)
            reference_files) as Hall.
  { apply (bool_decide_unpack _). vm_compute. exact I. }
  apply Hall.
Qed.

Lemma kept_refl st : kept st st.
Proof. by intros p _. Qed.

Lemma kept_trans st1 st2 st3 : kept st1 st2 → kept st2 st3 → kept st1 st3.
Proof.
  intros H12 H23 p Hp. rewrite <- (H12 p Hp). apply H23.
  by rewrite (H12 p Hp).
Qed.

(** A path that is free afterwards was free before. *)
Lemma kept_free st st' p : kept st st' → fs st' !! p = None → fs st !! p = None.
Proof.
  intros Hkept Hfree. destruct (fs st !! p) as [x|] eqn:Hp; [|done].
  rewrite <- (Hkept p) in Hp by (by rewrite Hp). congruence.
Qed.

Lemma ends_with_sep_occurs dir :
  ends_with_sep dir = true → occurs "/" dir = true.
Proof.
  induction dir as [|c dir IH]; simpl; [done|].
  destruct (decide ("/"%char = c)); [done|].
  destruct dir as [|d dir]; [|exact IH].
  intros Hc. apply bool_decide_eq_true_1 in Hc. congruence.
Qed.

(** A temporary name is never the name of the sample directory. *)
Lemma temp_path_not_sample_dir dir r suffix :
  temp_path dir r suffix ≠ "reference_audio".
Proof.
  unfold temp_path, path_join. intros Heq.
  assert (occurs "/" "reference_audio" = false) as Hnone by reflexivity.
  destruct dir as [|c dir]; [discriminate Heq|].
  rewrite <- Heq in Hnone.
  destruct (ends_with_sep (String c dir)) eqn:Hsep; simpl andb in Hnone;
    cbv iota in Hnone; rewrite !PyFacts.occurs_app in Hnone.
  - by rewrite (ends_with_sep_occurs _ Hsep) in Hnone.
  - change (occurs "/" "/") with true in Hnone.
    by rewrite orb_true_r in Hnone.
Qed.

Lemma adds_only_refl dir st : adds_only dir st st.
Proof. intros p Hp. by left. Qed.

(** A step that leaves the file system as it is. *)
Lemma grows_same dir st0 st st' :
  fs st' = fs st →
  kept st0 st ∧ adds_only dir st0 st → kept st0 st' ∧ adds_only dir st0 st'.
Proof.
  intros Hfs [Hkept Hadds]. unfold kept, adds_only. rewrite Hfs. done.
Qed.

(** A step that touches one temporary file that was not there at the
    start. *)
Lemma grows_file dir st0 st st' path :
  fs st0 !! path = None → temporary_wav dir path →
  (∀ p, p ≠ path → fs st' !! p = fs st !! p) →
  (∃ data, fs st' !! path = Some (File data)) →
  kept st0 st ∧ adds_only dir st0 st → kept st0 st' ∧ adds_only dir st0 st'.
Proof.
  intros Hfree Htmp Hother Hfile [Hkept Hadds]. split.
  - intros p Hp. rewrite Hother; [by apply Hkept|].
    intros ->. rewrite Hfree in Hp. by destruct Hp.
  - intros p Hp. destruct (decide (p = path)) as [->|Hne].
    + right. right. done.
    + rewrite (Hother p Hne). by apply Hadds.
Qed.

(** A step that adds the sample directory, which was not there. *)
Lemma grows_dir dir st0 st st' :
  fs st !! "reference_audio" = None →
  fs st' = <["reference_audio" := Dir]> (fs st) →
  kept st0 st ∧ adds_only dir st0 st → kept st0 st' ∧ adds_only dir st0 st'.
Proof.
  intros Hfree Hfs [Hkept Hadds]. split.
  - intros p Hp. rewrite Hfs, lookup_insert_ne; [by apply Hkept|].
    intros <-. rewrite <- (Hkept _ Hp), Hfree in Hp. by destruct Hp.
  - intros p Hp. rewrite Hfs. destruct (decide (p = "reference_audio")) as [->|Hne].
    + right. left. by rewrite lookup_insert_eq.
    + rewrite lookup_insert_ne by done. by apply Hadds.
Qed.

Section WithSystem.

Variable mkdir_permitted : string → bool.
Variable write_permitted : string → bool.
Variable dir_size : string → Z.
Variable gettempdir : string.
Variable TMP_MAX : positive.
Variable mkstemp_draw : nat → option string.
Variable import_TTS : result unit.
Variable api_key : option string.
Variable cuda_is_available : bool.
Variable TTS : string → option string → string → result tts_t.
Variable AUDIO_PROCESSING_AVAILABLE : bool.
Variable normalize : string → result string.

Local Abbreviation makedirs := (makedirs mkdir_permitted).
Local Abbreviation mkstemp := (mkstemp gettempdir TMP_MAX mkstemp_draw).
Local Abbreviation temp_path := (temp_path gettempdir).
Local Abbreviation temporary_wav := (temporary_wav gettempdir).
Local Abbreviation adds_only := (adds_only gettempdir).
Local Abbreviation write_file := (write_file write_permitted).
Local Abbreviation load_tts_model := (load_tts_model import_TTS).
Local Abbreviation get_reference_audio_path :=
  (get_reference_audio_path mkdir_permitted).
Local Abbreviation process_audio :=
  (process_audio write_permitted dir_size AUDIO_PROCESSING_AVAILABLE normalize).
Local Abbreviation synthesis :=
  (synthesis mkdir_permitted write_permitted dir_size gettempdir TMP_MAX mkstemp_draw import_TTS
     api_key cuda_is_available TTS AUDIO_PROCESSING_AVAILABLE normalize).
Local Abbreviation placeholder_on_error := (placeholder_on_error gettempdir TMP_MAX mkstemp_draw).
Local Abbreviation generate_voice_clone :=
  (generate_voice_clone mkdir_permitted write_permitted dir_size gettempdir TMP_MAX mkstemp_draw
     import_TTS api_key cuda_is_available TTS AUDIO_PROCESSING_AVAILABLE
     normalize).

(** *** [process_audio] *)

(** The two outcomes of [process_audio]: nothing changes, or the content
    of a non-empty file is replaced by its normalized bytes. *)
Lemma process_audio_cases audio_path st :
  process_audio audio_path st = ((), st)
  ∨ ∃ data normalized,
      AUDIO_PROCESSING_AVAILABLE = true
      ∧ fs st !! audio_path = Some (File data) ∧ data ≠ ""
      ∧ normalize data = Ok normalized
      ∧ write_permitted audio_path = true
      ∧ process_audio audio_path st
        = ((), with_fs (insert audio_path (File normalized)) st).
Proof.
  assert (AUDIO_PROCESSING_AVAILABLE = true
          ∨ AUDIO_PROCESSING_AVAILABLE = false) as [Havail|Havail]
    by (destruct AUDIO_PROCESSING_AVAILABLE; auto);
    unfold VoiceGenerator.process_audio; rewrite Havail; simpl; [|by left].
  unfold io_try_return, io_try, mbind, io_bind, exists_, getsize, read_file,
    lift, path_exists.
  destruct (fs st !! audio_path) as [[data|]|] eqn:Hfile.
  - rewrite bool_decide_eq_true_2 by (by eexists). simpl. rewrite Hfile. simpl.
    destruct (len data =? 0)%Z eqn:Hsize; simpl; [by left|]. rewrite Hfile.
    destruct (normalize data) as [normalized|e] eqn:Hnorm; simpl; [|by left].
    unfold VoiceGenerator.write_file. rewrite Hfile.
    destruct (write_permitted audio_path) eqn:Hw; simpl; [|by left].
    right. exists data, normalized. split_and!; try done.
    intros ->. by vm_compute in Hsize.
  - rewrite bool_decide_eq_true_2 by (by eexists). simpl. rewrite Hfile. simpl.
    destruct (dir_size audio_path =? 0)%Z; simpl; [by left|].
    rewrite Hfile. by left.
  - rewrite bool_decide_eq_false_2; [by left|]. by intros [? ?].
Qed.

(** X9.  [process_audio] does nothing at all when audio processing is not
    available, when nothing exists at the path, when the file is empty, and
    when the path is a directory. *)
Theorem process_audio_skips audio_path st :
  AUDIO_PROCESSING_AVAILABLE = false
  ∨ fs st !! audio_path = None
  ∨ fs st !! audio_path = Some (File "")
  ∨ fs st !! audio_path = Some Dir →
  process_audio audio_path st = ((), st).
Proof.
  intros Hskip.
  destruct (process_audio_cases audio_path st)
    as [?|(data & normalized & Havail & Hfile & Hdata & _)]; [done|].
  destruct Hskip as [?|[?|[?|?]]]; congruence.
Qed.

(** X10.  [process_audio] touches nothing but the file at [audio_path]:
    every other path is as before, no temporary name is drawn, and the
    file itself is either left as it is (nothing to do, or normalization
    or the export failed) or replaced by the normalized bytes of its own
    content. *)
Theorem process_audio_touches_one_file audio_path st :
  drawn (process_audio audio_path st).2 = drawn st
  ∧ (∀ p, p ≠ audio_path →
          fs (process_audio audio_path st).2 !! p = fs st !! p)
  ∧ (fs (process_audio audio_path st).2 !! audio_path = fs st !! audio_path
     ∨ ∃ data normalized,
         fs st !! audio_path = Some (File data)
         ∧ normalize data = Ok normalized
         ∧ fs (process_audio audio_path st).2 !! audio_path
           = Some (File normalized)).
Proof.
  destruct (process_audio_cases audio_path st)
    as [->|(data & normalized & _ & Hfile & _ & Hnorm & _ & ->)]; simpl.
  - by split_and!; [..|left].
  - split_and!; [done| |].
    + intros p Hp. by rewrite lookup_insert_ne.
    + right. exists data, normalized. by rewrite lookup_insert_eq.
Qed.

(** *** [get_reference_audio_path] *)

Lemma get_reference_audio_path_eq celebrity st :
  get_reference_audio_path celebrity st
  = match reference_files !! celebrity with
    | Some path =>
        if path_exists path st then (Some path, st)
        else (None, (makedirs "reference_audio" st).2)
    | None => (None, (makedirs "reference_audio" st).2)
    end.
Proof.
  unfold VoiceGenerator.get_reference_audio_path.
  destruct (reference_files !! celebrity) as [path|];
    [destruct (path_exists path st)|]; try done; apply no_reference_branch.
Qed.

Lemma makedirs_frame st :
  drawn (makedirs "reference_audio" st).2 = drawn st
  ∧ kept st (makedirs "reference_audio" st).2
  ∧ (∀ p, p ≠ "reference_audio" →
          fs (makedirs "reference_audio" st).2 !! p = fs st !! p).
Proof.
  rewrite makedirs_effect.
  destruct (fs st !! "reference_audio") as [x|] eqn:Hdir.
  { split_and!; [done|apply kept_refl|done]. }
  destruct (mkdir_permitted "reference_audio").
  2: { split_and!; [done|apply kept_refl|done]. }
  simpl. split_and!; [done| |].
  - intros p Hp. simpl. rewrite lookup_insert_ne; [done|].
    intros <-. rewrite Hdir in Hp. by destruct Hp.
  - intros p Hp. simpl. by rewrite lookup_insert_ne.
Qed.

Lemma makedirs_twice st :
  (makedirs "reference_audio" (makedirs "reference_audio" st).2).2
  = (makedirs "reference_audio" st).2.
Proof.
  rewrite !makedirs_effect.
  destruct (fs st !! "reference_audio") as [x|] eqn:Hdir; [by rewrite Hdir|].
  destruct (mkdir_permitted "reference_audio") eqn:Hperm.
  - simpl. by rewrite lookup_insert_eq.
  - by rewrite Hdir.
Qed.

Lemma get_reference_audio_path_frame celebrity st :
  drawn (get_reference_audio_path celebrity st).2 = drawn st
  ∧ kept st (get_reference_audio_path celebrity st).2.
Proof.
  rewrite get_reference_audio_path_eq.
  destruct (makedirs_frame st) as (Hdrawn & Hkept & _).
  destruct (reference_files !! celebrity) as [path|];
    [destruct (path_exists path st)|]; simpl; try done.
  all: split; [done|apply kept_refl].
Qed.

(** X11.  Asking for the reference sample a second time gives the same
    answer and changes nothing more: the sample directory is created at
    most once, and a failed creation is not held against later calls. *)
Theorem get_reference_audio_path_twice celebrity st :
  get_reference_audio_path celebrity (get_reference_audio_path celebrity st).2
  = get_reference_audio_path celebrity st.
Proof.
  rewrite !get_reference_audio_path_eq.
  destruct (reference_files !! celebrity) as [path|] eqn:Hmap.
  - destruct (path_exists path st) eqn:Hex; simpl; [by rewrite Hex|].
    destruct (reference_files_names _ _ Hmap) as [Hne _].
    destruct (makedirs_frame st) as (_ & _ & Hother).
    unfold path_exists in *. rewrite (Hother path Hne), Hex.
    by rewrite makedirs_twice.
  - simpl. by rewrite makedirs_twice.
Qed.

(** *** [generate_voice_clone] *)

Lemma get_reference_audio_path_grows celebrity st0 st :
  kept st0 st ∧ adds_only st0 st →
  kept st0 (get_reference_audio_path celebrity st).2
  ∧ adds_only st0 (get_reference_audio_path celebrity st).2.
Proof.
  intros Hgrows. rewrite get_reference_audio_path_eq.
  assert (kept st0 (makedirs "reference_audio" st).2
          ∧ adds_only st0 (makedirs "reference_audio" st).2) as Hdir.
  { rewrite makedirs_effect.
    destruct (fs st !! "reference_audio") as [x|] eqn:Hfree; [done|].
    destruct (mkdir_permitted "reference_audio"); [|done].
    by apply (grows_dir gettempdir st0 st). }
  destruct (reference_files !! celebrity) as [path|];
    [destruct (path_exists path st)|]; done.
Qed.

(** [mkstemp] keeps what is on disk; the file it makes is new, is empty,
    and has a temporary name. *)
Lemma mkstemp_grows suffix st0 st :
  kept st0 st ∧ adds_only st0 st →
  match mkstemp suffix st with
  | (Ok path, st') =>
      fs st !! path = None ∧ fs st0 !! path = None
      ∧ (∃ r, path = temp_path r suffix)
      ∧ fs st' = <[path := File ""]> (fs st)
  | (Raise _, st') => fs st' = fs st
  end.
Proof.
  intros [Hkept _].
  destruct (mkstemp_cases gettempdir TMP_MAX mkstemp_draw suffix st)
    as [_ [(r & Hr & Hfree & Hfs)|(e & He & Hfs)]];
    destruct (mkstemp suffix st) as [[path|e'] st']; simpl in *; try done.
  injection Hr as ->. split_and!; [done| |by exists r|done].
  by apply (kept_free st0 st).
Qed.

Lemma write_file_frame path data st :
  drawn (write_file path data st).2 = drawn st
  ∧ ∀ p, p ≠ path → fs (write_file path data st).2 !! p = fs st !! p.
Proof.
  unfold VoiceGenerator.write_file.
  destruct (fs st !! path) as [[d|]|]; try done;
    destruct (write_permitted path); try done; simpl.
  all: split; [done|]; intros p Hp; by rewrite lookup_insert_ne.
Qed.

(** Writing to a file leaves a file, whether the write succeeds or not. *)
Lemma write_file_file path data st old :
  fs st !! path = Some (File old) →
  ∃ data', fs (write_file path data st).2 !! path = Some (File data').
Proof.
  intros Hfile. unfold VoiceGenerator.write_file. rewrite Hfile.
  destruct (write_permitted path); simpl; [|by eexists].
  rewrite lookup_insert_eq. by eexists.
Qed.

Lemma process_audio_frame audio_path st :
  drawn (process_audio audio_path st).2 = drawn st
  ∧ ∀ p, p ≠ audio_path →
         fs (process_audio audio_path st).2 !! p = fs st !! p.
Proof.
  destruct (process_audio_cases audio_path st)
    as [->|(data & normalized & _ & _ & _ & _ & _ & ->)]; simpl; [done|].
  split; [done|]. intros p Hp. by rewrite lookup_insert_ne.
Qed.

(** The [try] block keeps what was on disk and adds only the sample
    directory and temporary files.  The path it returns names a temporary
    file that was not there before. *)
Lemma synthesis_grows text celebrity st :
  (kept st (synthesis text celebrity st).2
   ∧ adds_only st (synthesis text celebrity st).2)
  ∧ ∀ r, (synthesis text celebrity st).1 = Ok r →
         ∃ path, r = Some path ∧ fs st !! path = None ∧ temporary_wav path.
Proof.
  assert (kept st st ∧ adds_only st st) as Hstart
    by (split; [apply kept_refl|apply adds_only_refl]).
  unfold VoiceGenerator.synthesis.
  destruct load_tts_model; simpl; unfold mbind, io_bind, mret, io_ret, lift,
    call_total.
  - destruct import_TTS as [[]|e]; simpl; [|done].
    destruct (if truthy_opt api_key then _ else _) as [tts_model|e]; simpl;
      [|done].
    pose proof (get_reference_audio_path_grows celebrity st st Hstart) as H2.
    destruct (get_reference_audio_path celebrity st) as [reference st2].
    simpl in H2.
    pose proof (mkstemp_grows ".wav" st st2 H2) as H3.
    destruct (mkstemp ".wav" st2) as [[path|e] st3]; simpl.
    2: { split; [|done]. by apply (grows_same gettempdir st st2). }
    destruct H3 as (Hfree2 & Hfree & Hname & Hfs3).
    assert (kept st st3 ∧ adds_only st st3) as Hg3.
    { apply (grows_file gettempdir st st2 st3 path); try done.
      - intros p Hp. by rewrite Hfs3, lookup_insert_ne.
      - exists "". by rewrite Hfs3, lookup_insert_eq. }
    assert (fs st3 !! path = Some (File "")) as Hfile3
      by (by rewrite Hfs3, lookup_insert_eq).
    destruct (truthy_opt reference).
    all: destruct (synthesize tts_model text _ "en") as [audio|e]; simpl;
      [|done].
    all: destruct (write_file_frame path audio st3) as [_ Ho4].
    all: destruct (write_file_file path audio st3 "" Hfile3) as [data4 Hfile4].
    all: destruct (write_file path audio st3) as [[[]|e] st4];
      simpl in Ho4, Hfile4; simpl.
    all: assert (kept st st4 ∧ adds_only st st4) as Hg4
           by (apply (grows_file gettempdir st st3 st4 path); try done;
               by eexists).
    all: try done.
    all: destruct (process_audio_frame path st4) as [_ Ho5].
    all: destruct (process_audio_keeps_file write_permitted dir_size
                     AUDIO_PROCESSING_AVAILABLE normalize path st4 data4 Hfile4)
           as [data5 Hfile5].
    all: destruct AUDIO_PROCESSING_AVAILABLE; simpl.
    all: try (destruct (VoiceGenerator.process_audio _ _ _ _ path st4)
                as [[] st5]; simpl in *;
              split; [apply (grows_file gettempdir st st4 st5 path); try done;
                      by eexists|];
              intros r [= <-]; by exists path).
    all: split; [done|]; intros r [= <-]; by exists path.
  - pose proof (mkstemp_grows ".wav" st st Hstart) as H1.
    destruct (mkstemp ".wav" st) as [[path|e] st1]; simpl.
    2: { split; [|done]. by apply (grows_same gettempdir st st). }
    destruct H1 as (_ & Hfree & Hname & Hfs1).
    assert (kept st st1 ∧ adds_only st st1) as Hg1.
    { apply (grows_file gettempdir st st st1 path); try done.
      - intros p Hp. by rewrite Hfs1, lookup_insert_ne.
      - exists "". by rewrite Hfs1, lookup_insert_eq. }
    assert (fs st1 !! path = Some (File "")) as Hfile1
      by (by rewrite Hfs1, lookup_insert_eq).
    destruct (write_file_frame path unavailable_message st1) as [_ Ho2].
    destruct (write_file_file path unavailable_message st1 "" Hfile1)
      as [data2 Hfile2].
    destruct (write_file path unavailable_message st1) as [[[]|e] st2];
      simpl in Ho2, Hfile2; simpl.
    all: assert (kept st st2 ∧ adds_only st st2) as Hg2
           by (apply (grows_file gettempdir st st1 st2 path); try done;
               by eexists).
    + split; [done|]. intros r [= <-]. by exists path.
    + done.
Qed.

(** The handler keeps what was on disk and adds one temporary file at
    most; the path it returns names that file, which is new and empty. *)
Lemma placeholder_on_error_grows st0 st :
  kept st0 st ∧ adds_only st0 st →
  (kept st0 (placeholder_on_error st).2
   ∧ adds_only st0 (placeholder_on_error st).2)
  ∧ ∀ path, (placeholder_on_error st).1 = Some path →
            fs st !! path = None ∧ fs st0 !! path = None
            ∧ temporary_wav path
            ∧ fs (placeholder_on_error st).2 = <[path := File ""]> (fs st).
Proof.
  intros Hg.
  unfold VoiceGenerator.placeholder_on_error, io_try_return, mbind, io_bind.
  pose proof (mkstemp_grows ".wav" st0 st Hg) as H1.
  destruct (mkstemp ".wav" st) as [[path|e] st1]; simpl.
  2: { split; [|done]. by apply (grows_same gettempdir st0 st). }
  destruct H1 as (Hfree & Hfree0 & Hname & Hfs1). split.
  - apply (grows_file gettempdir st0 st st1 path); try done.
    + intros p Hp. by rewrite Hfs1, lookup_insert_ne.
    + exists "". by rewrite Hfs1, lookup_insert_eq.
  - intros ? [= <-]. done.
Qed.

(** C1 (amended).  [generate_voice_clone] never raises.  When synthesis
    ends without an exception, it returns the path of a file that exists.
    Without the [TTS] package that file holds the 74-character message;
    with the package it holds what the voice model wrote, or the
    normalized form of these bytes.  In both cases the size of the file is
    greater than 0, given that the audio libraries never write an empty
    file.  When an exception is raised during synthesis, one more
    temporary file is asked for.  When it can be created, its path is
    returned: the file is new (nothing existed under that name before the
    call, nor when the exception arrived), it is empty (size 0), and
    nothing else on disk has changed since the exception.  When it cannot
    be created, [None] is returned. *)
Theorem generate_voice_clone_outcome text celebrity st :
  match synthesis text celebrity st with
  | (Ok r, st1) =>
      generate_voice_clone text celebrity st = (r, st1)
      ∧ ∃ path data,
          r = Some path ∧ fs st1 !! path = Some (File data)
          ∧ (load_tts_model = false → data = unavailable_message)
          ∧ (load_tts_model = true →
             ∃ tts_model speaker audio,
               TTS xtts_v2 (if truthy_opt api_key then api_key else None)
                 (if cuda_is_available then "cuda" else "cpu") = Ok tts_model
               ∧ synthesize tts_model text speaker "en" = Ok audio
               ∧ (data = audio ∨ (audio ≠ "" ∧ normalize audio = Ok data)))
          ∧ (writes_audio TTS normalize → (0 < len data)%Z)
  | (Raise e, st1) =>
      match mkstemp ".wav" st1 with
      | (Ok path, st2) =>
          generate_voice_clone text celebrity st = (Some path, st2)
          ∧ fs st !! path = None ∧ fs st1 !! path = None
          ∧ fs st2 = <[path := File ""]> (fs st1)
          ∧ fs st2 !! path = Some (File "")
      | (Raise _, st2) =>
          generate_voice_clone text celebrity st = (None, st2)
      end
  end.
Proof.
  unfold VoiceGenerator.generate_voice_clone, io_try_return.
  destruct (synthesis_grows text celebrity st) as [[Hkept _] _].
  destruct (synthesis text celebrity st) as [[r|e] st1] eqn:Hbody.
  - split; [done|].
    assert (load_tts_model = true ∨ load_tts_model = false) as [Havail|Havail]
      by (destruct load_tts_model; auto).
    + destruct (synthesis_Ok_available mkdir_permitted write_permitted
                  dir_size gettempdir TMP_MAX mkstemp_draw import_TTS api_key
                  cuda_is_available TTS AUDIO_PROCESSING_AVAILABLE normalize
                  text celebrity st r st1 Havail Hbody)
        as (path & data & tts_model & speaker & audio & -> & Hfile & Hmodel
            & Hspeech & Hdata).
      exists path, data. split_and!; [done|done|congruence| |].
      * intros _. by exists tts_model, speaker, audio.
      * intros [Hvoice Hnorm]. apply len_pos.
        pose proof (Hvoice _ _ _ _ _ _ _ _ Hmodel Hspeech) as Haudio.
        destruct Hdata as [->|[_ Hdata]]; [done|]. by eapply Hnorm.
    + apply synthesis_Ok in Hbody as (path & data & -> & Hfile & Hmsg).
      exists path, data. rewrite (Hmsg Havail) in *.
      split_and!; [done|done|done|congruence|].
      intros _. by rewrite len_unavailable_message.
  - unfold VoiceGenerator.placeholder_on_error, io_try_return, mbind, io_bind.
    destruct (mkstemp ".wav" st1) as [[path|e'] st2] eqn:Htmp; simpl; [|done].
    apply mkstemp_Ok in Htmp as [Hfree ->]. simpl in Hkept.
    split_and!; [done| |done|done|by rewrite lookup_insert_eq].
    by apply (kept_free st st1).
Qed.


(** X13.  The path [generate_voice_clone] returns names a file that the
    call created: nothing existed under that name before the call, a file
    is there afterwards, and the name is one that
    [mkstemp(suffix='.wav')] makes in the directory of the temporary
    files, [os.path.join(tempfile.gettempdir(), "tmp" + random + ".wav")]. *)
Theorem generate_voice_clone_fresh_path text celebrity st path :
  (generate_voice_clone text celebrity st).1 = Some path →
  fs st !! path = None
  ∧ (∃ data, fs (generate_voice_clone text celebrity st).2 !! path
             = Some (File data))
  ∧ temporary_wav path.
Proof.
  unfold VoiceGenerator.generate_voice_clone, io_try_return.
  destruct (synthesis_grows text celebrity st) as [Hg Hout].
  destruct (synthesis text celebrity st) as [[r|e] st1] eqn:Hbody;
    simpl in Hg, Hout.
  - simpl. intros ->. destruct (Hout _ eq_refl) as (p & [= <-] & Hfree & Hname).
    apply synthesis_Ok in Hbody as (p & data & [= <-] & Hfile & _).
    split_and!; [done|by exists data|done].
  - destruct (placeholder_on_error_grows st st1 Hg) as [_ Hpath].
    destruct (placeholder_on_error st1) as [r st2]. simpl in *.
    intros ->. destruct (Hpath path eq_refl) as (_ & Hfree & Hname & Hfs).
    split_and!; [done| |done]. exists "". by rewrite Hfs, lookup_insert_eq.
Qed.

(** The sample that is returned is a name of the table, so it is never the
    empty string: the test [if reference_audio] fails for [None] only. *)
Lemma reference_audio_truthy celebrity st :
  truthy_opt (get_reference_audio_path celebrity st).1 = false →
  (get_reference_audio_path celebrity st).1 = None.
Proof.
  rewrite get_reference_audio_path_eq.
  destruct (reference_files !! celebrity) as [path|] eqn:Hmap; [|done].
  destruct (path_exists path st); [|done]. simpl.
  destruct (reference_files_names _ _ Hmap) as [_ ->]. done.
Qed.

(** With the package installed and the model loaded, the block reaches the
    call of the voice model once the first candidate name is free: this is
    the state in which the call is made. *)
Lemma synthesis_reaches_voice text celebrity st tts_model r :
  import_TTS = Ok () →
  TTS xtts_v2 (if truthy_opt api_key then api_key else None)
    (if cuda_is_available then "cuda" else "cpu") = Ok tts_model →
  mkstemp_draw (drawn st) = Some r →
  fs st !! temp_path r ".wav" = None →
  let path := temp_path r ".wav" in
  let st2 := (get_reference_audio_path celebrity st).2 in
  let st3 := {| fs := <[path := File ""]> (fs st2); drawn := S (drawn st2) |} in
  fs st2 !! path = None
  ∧ synthesis text celebrity st
    = (_ ← (audio ← lift (synthesize tts_model text
                            (get_reference_audio_path celebrity st).1 "en");
            write_file path audio);
       _ ← (if AUDIO_PROCESSING_AVAILABLE
            then call_total (process_audio path)
            else mret ());
       mret (Some path)) st3.
Proof.
  intros Himport Hload Hdraw Hfree path st2 st3.
  pose proof (reference_audio_truthy celebrity st) as Htruthy.
  destruct (get_reference_audio_path_frame celebrity st) as [Hd2 _].
  assert (fs st2 !! path = None) as Hfree2.
  { unfold st2. rewrite get_reference_audio_path_eq.
    destruct (makedirs_frame st) as (_ & _ & Hother).
    destruct (reference_files !! celebrity) as [p|];
      [destruct (path_exists p st)|]; simpl; try done.
    all: rewrite Hother; [done|apply temp_path_not_sample_dir]. }
  split; [done|].
  assert (mkstemp ".wav" st2 = (Ok path, st3)) as Htmp.
  { apply mkstemp_first; [|done]. unfold st2. by rewrite Hd2. }
  unfold VoiceGenerator.synthesis, VoiceGenerator.load_tts_model.
  rewrite Himport. simpl.
  unfold mbind, io_bind, mret, io_ret, lift, call_total.
  assert ((if truthy_opt api_key
           then TTS xtts_v2 api_key (if cuda_is_available then "cuda" else "cpu")
           else TTS xtts_v2 None (if cuda_is_available then "cuda" else "cpu"))
          = Ok tts_model) as ->.
  { by destruct (truthy_opt api_key). }
  subst st2 st3 path.
  destruct (get_reference_audio_path celebrity st) as [reference st2].
  simpl in *. rewrite Htmp.
  destruct (truthy_opt reference); [done|]. by rewrite Htruthy.
Qed.

(** X14.  A file is left behind when the voice model raises.  With the
    package installed and the model loaded, the output file is created
    before the model is asked to speak; when that call raises, the handler
    asks for another temporary file.  The first file stays on disk, empty;
    the path that is returned, if any, names a second new and empty file,
    never the first one. *)
Theorem failed_synthesis_leaves_file text celebrity st tts_model r e :
  import_TTS = Ok () →
  TTS xtts_v2 (if truthy_opt api_key then api_key else None)
    (if cuda_is_available then "cuda" else "cpu") = Ok tts_model →
  mkstemp_draw (drawn st) = Some r →
  fs st !! temp_path r ".wav" = None →
  synthesize tts_model text (get_reference_audio_path celebrity st).1 "en"
  = Raise e →
  fs (generate_voice_clone text celebrity st).2 !! temp_path r ".wav"
  = Some (File "")
  ∧ (generate_voice_clone text celebrity st).1 ≠ Some (temp_path r ".wav")
  ∧ ∀ path, (generate_voice_clone text celebrity st).1 = Some path →
            fs st !! path = None
            ∧ fs (generate_voice_clone text celebrity st).2 !! path
              = Some (File "").
Proof.
  intros Himport Hload Hdraw Hfree Hspeech.
  destruct (synthesis_reaches_voice text celebrity st tts_model r
              Himport Hload Hdraw Hfree) as [Hfree2 Hbody].
  destruct (get_reference_audio_path_frame celebrity st) as [_ Hk2].
  unfold VoiceGenerator.generate_voice_clone, io_try_return.
  rewrite Hbody. unfold mbind, io_bind, lift. rewrite Hspeech.
  set (path1 := temp_path r ".wav") in *.
  set (st3 := {| fs := _; drawn := _ |}).
  assert (fs st3 !! path1 = Some (File "")) as Hfile1
    by (unfold st3; simpl; by rewrite lookup_insert_eq).
  unfold VoiceGenerator.placeholder_on_error, io_try_return, mbind, io_bind.
  destruct (mkstemp ".wav" st3) as [[path2|e'] st4] eqn:Htmp; simpl.
  - apply mkstemp_Ok in Htmp as [Hfree3 ->].
    assert (path2 ≠ path1) as Hne by (intros ->; congruence).
    split_and!.
    + by rewrite lookup_insert_ne.
    + congruence.
    + intros ? [= <-]. split; [|by rewrite lookup_insert_eq].
      apply (kept_free st _ path2 Hk2).
      unfold st3 in Hfree3. simpl in Hfree3.
      by rewrite lookup_insert_ne in Hfree3.
  - destruct (mkstemp_cases gettempdir TMP_MAX mkstemp_draw ".wav" st3)
      as [_ [(r' & Hr & _)|(e'' & _ & Hfs)]]; rewrite Htmp in *; simpl in *;
      [done|].
    rewrite Hfs. by split_and!.
Qed.

(** X15.  With the package installed and the model loaded, the speech is
    synthesized in English with the voice that
    [get_reference_audio_path] selects: the sample of the celebrity when
    it is on disk, the default voice of the model otherwise.  When the
    temporary file can be created and written, its path is returned and
    the file holds the synthesized bytes, or their normalized form when
    audio processing succeeded. *)
Theorem generate_voice_clone_speaks text celebrity st tts_model r audio :
  import_TTS = Ok () →
  TTS xtts_v2 (if truthy_opt api_key then api_key else None)
    (if cuda_is_available then "cuda" else "cpu") = Ok tts_model →
  mkstemp_draw (drawn st) = Some r →
  fs st !! temp_path r ".wav" = None →
  write_permitted (temp_path r ".wav") = true →
  synthesize tts_model text (get_reference_audio_path celebrity st).1 "en"
  = Ok audio →
  (generate_voice_clone text celebrity st).1 = Some (temp_path r ".wav")
  ∧ (fs (generate_voice_clone text celebrity st).2 !! temp_path r ".wav"
     = Some (File audio)
     ∨ ∃ normalized,
         AUDIO_PROCESSING_AVAILABLE = true ∧ normalize audio = Ok normalized
         ∧ fs (generate_voice_clone text celebrity st).2 !! temp_path r ".wav"
           = Some (File normalized)).
Proof.
  intros Himport Hload Hdraw Hfree Hwrite Hspeech.
  destruct (synthesis_reaches_voice text celebrity st tts_model r
              Himport Hload Hdraw Hfree) as [_ Hbody].
  unfold VoiceGenerator.generate_voice_clone, io_try_return.
  rewrite Hbody. unfold mbind, io_bind, mret, io_ret, lift, call_total.
  rewrite Hspeech.
  set (path := temp_path r ".wav") in *.
  set (st3 := {| fs := _; drawn := _ |}).
  assert (write_file path audio st3
          = (Ok (), with_fs (insert path (File audio)) st3)) as Hw.
  { unfold VoiceGenerator.write_file, st3. simpl.
    by rewrite lookup_insert_eq, Hwrite. }
  set (st4 := with_fs (insert path (File audio)) st3) in *.
  assert (fs st4 !! path = Some (File audio)) as Hfile
    by (unfold st4; simpl; by rewrite lookup_insert_eq).
  pose proof (process_audio_cases path st4) as Hcases.
  rewrite Hw; cbv beta iota.
  destruct AUDIO_PROCESSING_AVAILABLE; cbv beta iota.
  2: { split; [done|by left]. }
  destruct Hcases
    as [Hsame|(data & normalized & _ & Hdata & _ & Hnorm & _ & Hnew)].
  { rewrite Hsame; split; [done|by left]. }
  rewrite Hnew; split; [done|]; right; exists normalized.
  rewrite Hfile in Hdata; injection Hdata as <-.
  split_and!; [done..|]; simpl; by rewrite lookup_insert_eq.
Qed.

End WithSystem.

End VoiceGeneratorMore.

Module VoiceGeneratorMoreCases.

Import VoiceGenerator VoiceGeneratorSpec VoiceGeneratorMore MoreSpec.
Import Scenario MoreScenario.

Lemma process_audio_skips_witness :
  (true = false
   ∨ fs empty_disk !! "/tmp/tmpk3x9q2.wav" = None
   ∨ fs empty_disk !! "/tmp/tmpk3x9q2.wav" = Some (File "")
   ∨ fs empty_disk !! "/tmp/tmpk3x9q2.wav" = Some Dir)
  ∧ process_audio permitted block_size true (λ s, Ok s)
      "/tmp/tmpk3x9q2.wav" empty_disk = ((), empty_disk).
Proof.
  split; [right; left; reflexivity|].
  apply (process_audio_skips permitted block_size true (λ s, Ok s)
           "/tmp/tmpk3x9q2.wav" empty_disk).
  right. left. reflexivity.
Defined.

Lemma generate_voice_clone_fresh_path_witness :
  (generate_voice_clone permitted permitted block_size tmp_dir tmp_max draw
     (Ok ()) None false model_missing false (λ s, Ok s) "hello"
     "Morgan Freeman" empty_disk).1 = Some "/tmp/tmpk3x9q2.wav"
  ∧ fs empty_disk !! "/tmp/tmpk3x9q2.wav" = None
  ∧ (∃ data,
       fs (generate_voice_clone permitted permitted block_size tmp_dir tmp_max
             draw (Ok ()) None false model_missing false (λ s, Ok s) "hello"
             "Morgan Freeman" empty_disk).2 !! "/tmp/tmpk3x9q2.wav"
       = Some (File data))
  ∧ temporary_wav tmp_dir "/tmp/tmpk3x9q2.wav".
Proof.
  split; [reflexivity|].
  apply (generate_voice_clone_fresh_path permitted permitted block_size
           tmp_dir tmp_max draw (Ok ()) None false model_missing false
           (λ s, Ok s) "hello" "Morgan Freeman" empty_disk
           "/tmp/tmpk3x9q2.wav").
  reflexivity.
Defined.

(** With another directory for the temporary files, the names follow. *)
Lemma other_temporary_directory :
  (generate_voice_clone permitted permitted block_size "/var/tmp" tmp_max draw
     not_installed None false model_missing false (λ s, Ok s) "hello"
     "Morgan Freeman" empty_disk).1 = Some "/var/tmp/tmpk3x9q2.wav".
Proof. reflexivity. Qed.

(** What one call leaves on an empty disk when the model raises while it
    speaks: the sample directory and two empty files. *)
Lemma failed_synthesis_disk :
  generate_voice_clone permitted permitted block_size tmp_dir tmp_max draw
    (Ok ()) None false mute_tts false (λ s, Ok s) "hello" "Morgan Freeman"
    empty_disk
  = (Some "/tmp/tmpp7m2zc.wav",
     {| fs := <["/tmp/tmpp7m2zc.wav" := File ""]>
              (<["/tmp/tmpk3x9q2.wav" := File ""]>
               (<["reference_audio" := Dir]> ∅));
        drawn := 2 |}).
Proof. by vm_compute. Qed.

Lemma failed_synthesis_leaves_file_witness :
  (Ok () : result unit) = Ok ()
  ∧ mute_tts xtts_v2 None "cpu" = Ok mute_model
  ∧ draw (drawn empty_disk) = Some "k3x9q2"
  ∧ fs empty_disk !! temp_path tmp_dir "k3x9q2" ".wav" = None
  ∧ synthesize mute_model "hello"
      (get_reference_audio_path permitted "Morgan Freeman" empty_disk).1 "en"
    = Raise "RuntimeError"
  ∧ fs (generate_voice_clone permitted permitted block_size tmp_dir tmp_max
          draw (Ok ()) None false mute_tts false (λ s, Ok s) "hello"
          "Morgan Freeman" empty_disk).2 !! temp_path tmp_dir "k3x9q2" ".wav"
    = Some (File "")
  ∧ (generate_voice_clone permitted permitted block_size tmp_dir tmp_max draw
       (Ok ()) None false mute_tts false (λ s, Ok s) "hello" "Morgan Freeman"
       empty_disk).1 ≠ Some (temp_path tmp_dir "k3x9q2" ".wav")
  ∧ ∀ path,
      (generate_voice_clone permitted permitted block_size tmp_dir tmp_max
         draw (Ok ()) None false mute_tts false (λ s, Ok s) "hello"
         "Morgan Freeman" empty_disk).1 = Some path →
      fs empty_disk !! path = None
      ∧ fs (generate_voice_clone permitted permitted block_size tmp_dir
              tmp_max draw (Ok ()) None false mute_tts false (λ s, Ok s)
              "hello" "Morgan Freeman" empty_disk).2 !! path
        = Some (File "").
Proof.
  do 5 (split; [reflexivity|]).
  apply (failed_synthesis_leaves_file permitted permitted block_size tmp_dir
           tmp_max draw (Ok ()) None false mute_tts false (λ s, Ok s)
           "hello" "Morgan Freeman" empty_disk mute_model "k3x9q2"
           "RuntimeError"); reflexivity.
Defined.

Lemma generate_voice_clone_speaks_witness :
  (Ok () : result unit) = Ok ()
  ∧ talking_tts xtts_v2 None "cpu" = Ok talking_model
  ∧ draw (drawn disk_with_sample) = Some "k3x9q2"
  ∧ fs disk_with_sample !! temp_path tmp_dir "k3x9q2" ".wav" = None
  ∧ permitted (temp_path tmp_dir "k3x9q2" ".wav") = true
  ∧ synthesize talking_model "hello"
      (get_reference_audio_path permitted "Morgan Freeman" disk_with_sample).1
      "en" = Ok "RIFFdata"
  ∧ (generate_voice_clone permitted permitted block_size tmp_dir tmp_max draw
       (Ok ()) None false talking_tts false (λ s, Ok s) "hello"
       "Morgan Freeman" disk_with_sample).1
    = Some (temp_path tmp_dir "k3x9q2" ".wav")
  ∧ (fs (generate_voice_clone permitted permitted block_size tmp_dir tmp_max
           draw (Ok ()) None false talking_tts false (λ s, Ok s) "hello"
           "Morgan Freeman" disk_with_sample).2
       !! temp_path tmp_dir "k3x9q2" ".wav"
     = Some (File "RIFFdata")
     ∨ ∃ normalized,
         false = true ∧ (λ s : string, Ok s) "RIFFdata" = Ok normalized
         ∧ fs (generate_voice_clone permitted permitted block_size tmp_dir
                 tmp_max draw (Ok ()) None false talking_tts false (λ s, Ok s)
                 "hello" "Morgan Freeman" disk_with_sample).2
             !! temp_path tmp_dir "k3x9q2" ".wav" = Some (File normalized)).
Proof.
  do 6 (split; [reflexivity|]).
  apply (generate_voice_clone_speaks permitted permitted block_size tmp_dir
           tmp_max draw (Ok ()) None false talking_tts false (λ s, Ok s)
           "hello" "Morgan Freeman" disk_with_sample talking_model
           "k3x9q2" "RIFFdata"); reflexivity.
Defined.

End VoiceGeneratorMoreCases.

(** ** Properties of the script *)

Module AppFacts.

Import VoiceGenerator App MoreSpec.

Section WithServices.

Variable hf_api_key : option string.
Variable tokenizer_from_pretrained
  : string → option string → result Summarizer.tokenizer_t.
Variable Model : Type.
Variable model_from_pretrained : string → option string → result Model.
Variable pipeline : string → Model → Summarizer.tokenizer_t
                    → result Summarizer.pipeline_t.
Variable hub_cache : Summarizer.event → gmap string VoiceGenerator.entry
                     → gmap string VoiceGenerator.entry.
Variable mkdir_permitted : string → bool.
Variable write_permitted : string → bool.
Variable dir_size : string → Z.
Variable gettempdir : string.
Variable TMP_MAX : positive.
Variable mkstemp_draw : nat → option string.
Variable import_TTS : result unit.
Variable coqui_api_key : option string.
Variable cuda_is_available : bool.
Variable TTS : string → option string → string → result VoiceGenerator.tts_t.
Variable AUDIO_PROCESSING_AVAILABLE : bool.
Variable normalize : string → result string.
Variable selected_voice : string.
Variable pressed : nat → bool.

Local Abbreviation summarize :=
  (summarize hf_api_key tokenizer_from_pretrained Model model_from_pretrained
     pipeline hub_cache).
Local Abbreviation summary_step :=
  (summary_step hf_api_key tokenizer_from_pretrained Model
     model_from_pretrained pipeline hub_cache).
Local Abbreviation temp_path := (temp_path gettempdir).
Local Abbreviation summary_of :=
  (summary_of hf_api_key tokenizer_from_pretrained Model model_from_pretrained
     pipeline).
Local Abbreviation summary_computed :=
  (summary_computed hf_api_key tokenizer_from_pretrained Model
     model_from_pretrained pipeline).
Local Abbreviation generate_voice_clone :=
  (VoiceGenerator.generate_voice_clone mkdir_permitted write_permitted
     dir_size gettempdir TMP_MAX mkstemp_draw import_TTS coqui_api_key cuda_is_available TTS
     AUDIO_PROCESSING_AVAILABLE normalize).
Local Abbreviation synthesis :=
  (VoiceGenerator.synthesis mkdir_permitted write_permitted
     dir_size gettempdir TMP_MAX mkstemp_draw import_TTS coqui_api_key cuda_is_available TTS
     AUDIO_PROCESSING_AVAILABLE normalize).
Local Abbreviation generate :=
  (generate mkdir_permitted write_permitted dir_size gettempdir TMP_MAX mkstemp_draw import_TTS
     coqui_api_key cuda_is_available TTS AUDIO_PROCESSING_AVAILABLE normalize
     selected_voice).
Local Abbreviation audio_ready := (audio_ready dir_size).
Local Abbreviation audio_step :=
  (audio_step mkdir_permitted write_permitted dir_size gettempdir TMP_MAX mkstemp_draw import_TTS
     coqui_api_key cuda_is_available TTS AUDIO_PROCESSING_AVAILABLE normalize
     selected_voice).
Local Abbreviation show_item :=
  (show_item hf_api_key tokenizer_from_pretrained Model model_from_pretrained
     pipeline hub_cache mkdir_permitted write_permitted dir_size gettempdir TMP_MAX mkstemp_draw import_TTS
     coqui_api_key cuda_is_available TTS AUDIO_PROCESSING_AVAILABLE normalize
     selected_voice pressed).
Local Abbreviation show_items :=
  (show_items hf_api_key tokenizer_from_pretrained Model model_from_pretrained
     pipeline hub_cache mkdir_permitted write_permitted dir_size gettempdir TMP_MAX mkstemp_draw import_TTS
     coqui_api_key cuda_is_available TTS AUDIO_PROCESSING_AVAILABLE normalize
     selected_voice pressed).
Local Abbreviation show_news :=
  (show_news hf_api_key tokenizer_from_pretrained Model model_from_pretrained
     pipeline hub_cache mkdir_permitted write_permitted dir_size gettempdir TMP_MAX mkstemp_draw import_TTS
     coqui_api_key cuda_is_available TTS AUDIO_PROCESSING_AVAILABLE normalize
     selected_voice pressed).

(** *** The summaries *)

Lemma field_present i key s item value :
  news_items s !! i = Some item → item !! key = Some value →
  field i key s = (Ok value, s).
Proof.
  intros Hi Hkey. unfold field, mbind, io_bind, item_at, lift, getitem.
  by rewrite Hi, Hkey.
Qed.

(** An item that has its summary is left alone. *)
Lemma summary_step_present i s item :
  news_items s !! i = Some item → is_Some (item !! "summary") →
  summary_step i s = (Ok (), s).
Proof.
  intros Hi Hsum. unfold App.summary_step, mbind, io_bind, item_at.
  rewrite Hi. rewrite bool_decide_eq_true_2; [done|]. by apply elem_of_dom.
Qed.

(** An item without summary gets the text [summarize_text] returns for its
    description; nothing else in the session list changes. *)
Lemma summary_step_absent i s item description :
  news_items s !! i = Some item → item !! "summary" = None →
  item !! "description" = Some description →
  ∃ summary m d,
    summary_step i s
    = (Ok (), {| news_items := <[i := <["summary" := summary]> item]>
                                 (news_items s);
                 model := m; disk := d; page := page s |})
    ∧ summary_of description summary.
Proof.
  intros Hi Hsum Hdesc. unfold App.summary_step, mbind, io_bind, item_at.
  rewrite Hi. rewrite bool_decide_eq_false_2.
  2: { rewrite elem_of_dom, Hsum. by intros [? ?]. }
  unfold io_try, mbind, io_bind.
  rewrite (field_present i "description" s item description Hi Hdesc).
  unfold App.summarize.
  destruct (Summarizer.summarize_text _ _ _ _ _ _ _ _ _) as [summary m]
    eqn:Hsummary.
  exists summary, m. eexists. split; [|exists (model s); by rewrite Hsummary].
  unfold set_field. simpl. do 2 f_equal.
  apply list_eq. intros j. destruct (decide (i = j)) as [<-|Hne].
  - rewrite list_lookup_alter_eq, Hi. simpl.
    rewrite list_lookup_insert_eq; [done|]. by eapply lookup_lt_Some.
  - by rewrite list_lookup_alter_ne, list_lookup_insert_ne.
Qed.

Lemma summary_added_displayable item item' :
  displayable item → summary_added item item' →
  displayable item' ∧ is_Some (item' !! "summary").
Proof.
  intros (Ht & Hd & Hl) (Hs & Hother & _).
  split; [|done]. unfold displayable. by rewrite !Hother.
Qed.

(** The body of the loop for an item that has its summary, without a
    press of its button: nothing changes. *)
Lemma show_item_noop i s item :
  pressed i = false →
  news_items s !! i = Some item → displayable item →
  is_Some (item !! "summary") →
  show_item i s = (Ok (), s).
Proof.
  intros Hquiet Hi ([t Ht] & [d Hd] & [l Hl]) [sm Hsm].
  unfold App.show_item, mbind, io_bind.
  rewrite (field_present i "title" s item t Hi Ht).
  fold summary_step.
  rewrite (summary_step_present i s item Hi) by by eexists.
  rewrite (field_present i "description" s item d Hi Hd).
  rewrite (field_present i "summary" s item sm Hi Hsm).
  rewrite (field_present i "link" s item l Hi Hl).
  by rewrite Hquiet.
Qed.

(** The body of the loop without a press of the button: the item gets its
    summary, and the rest of the list and the page are as before. *)
Lemma show_item_quiet i s item :
  pressed i = false →
  news_items s !! i = Some item → displayable item →
  ∃ item' m d,
    show_item i s
    = (Ok (), {| news_items := <[i := item']> (news_items s);
                 model := m; disk := d; page := page s |})
    ∧ summary_computed item item'.
Proof.
  intros Hquiet Hi Hshow.
  destruct (item !! "summary") as [sm|] eqn:Hsm.
  - exists item, (model s), (disk s).
    assert (show_item i s = (Ok (), s)) as ->
      by (apply (show_item_noop i s item); done).
    split.
    + rewrite list_insert_id by done. by destruct s.
    + split; [split_and!; [by eexists|done..]|congruence].
  - destruct Hshow as ([t Ht] & [d Hd] & [l Hl]).
    destruct (summary_step_absent i s item d Hi Hsm Hd)
      as (summary & m & dk & Hstep & Hof).
    exists (<["summary" := summary]> item), m, dk.
    unfold App.show_item, mbind, io_bind.
    rewrite (field_present i "title" s item t Hi Ht).
    fold summary_step. rewrite Hstep.
    set (s1 := {| news_items := _; model := m |}).
    assert (news_items s1 !! i = Some (<["summary" := summary]> item)) as Hi1.
    { simpl. rewrite list_lookup_insert_eq; [done|]. by eapply lookup_lt_Some. }
    rewrite (field_present i "description" s1 _ d Hi1)
      by by rewrite lookup_insert_ne.
    rewrite (field_present i "summary" s1 _ summary Hi1)
      by by rewrite lookup_insert_eq.
    rewrite (field_present i "link" s1 _ l Hi1)
      by by rewrite lookup_insert_ne.
    rewrite Hquiet. split; [done|].
    split; [split_and!|].
    + rewrite lookup_insert_eq. by eexists.
    + intros key Hkey. by rewrite lookup_insert_ne.
    + rewrite Hsm. by intros [? ?].
    + intros _ d' Hd'. rewrite Hd in Hd'. injection Hd' as <-.
      exists summary. by rewrite lookup_insert_eq.
Qed.

(** The loop, when no button is pressed. *)
Lemma show_items_quiet count : ∀ i s,
  (∀ j, pressed j = false) →
  (∀ j item, i ≤ j < i + count → news_items s !! j = Some item →
             displayable item) →
  i + count ≤ length (news_items s) →
  ∃ s',
    show_items i count s = (Ok (), s')
    ∧ page s' = page s
    ∧ length (news_items s') = length (news_items s)
    ∧ ∀ j item, news_items s !! j = Some item →
        ∃ item', news_items s' !! j = Some item'
                 ∧ if decide (i ≤ j < i + count)
                   then summary_computed item item' else item' = item.
Proof.
  induction count as [|count IH]; intros i s Hquiet Hshow Hlen.
  - exists s. simpl. split_and!; try done.
    intros j item Hj. exists item. split; [done|].
    case_decide; [lia|done].
  - destruct (lookup_lt_is_Some_2 (news_items s) i) as [item Hi]; [lia|].
    destruct (show_item_quiet i s item (Hquiet i) Hi)
      as (item1 & m & dk & Hstep & Hadded).
    { apply (Hshow i); [lia|done]. }
    set (s1 := {| news_items := <[i := item1]> (news_items s); model := m;
                  disk := dk; page := page s |}) in *.
    destruct (IH (S i) s1 Hquiet) as (s' & Hrun & Hpage & Hlen' & Hitems).
    { intros j it Hj. simpl. rewrite list_lookup_insert_ne by lia.
      apply Hshow. lia. }
    { simpl. rewrite length_insert. lia. }
    exists s'. simpl. unfold mbind, io_bind. fold show_item. rewrite Hstep.
    fold show_items. rewrite Hrun.
    split_and!; [done|done| |].
    { rewrite Hlen'. simpl. by rewrite length_insert. }
    intros j it Hj. destruct (decide (j = i)) as [->|Hne].
    + destruct (Hitems i item1) as (item' & Hi' & Hsame).
      { simpl. rewrite list_lookup_insert_eq; [done|]. by eapply lookup_lt_Some. }
      rewrite decide_False in Hsame by lia. subst item'.
      rewrite Hi in Hj. injection Hj as <-.
      exists item1. split; [done|]. by rewrite decide_True by lia.
    + destruct (Hitems j it) as (item' & Hj' & Hrel).
      { simpl. by rewrite list_lookup_insert_ne. }
      exists item'. split; [done|].
      destruct (decide (S i ≤ j < S i + count)).
      * by rewrite decide_True by lia.
      * by rewrite decide_False by lia.
Qed.

(** The loop over items that have their summaries changes nothing. *)
Lemma show_items_noop count : ∀ i s,
  (∀ j, pressed j = false) →
  (∀ j item, i ≤ j < i + count → news_items s !! j = Some item →
             displayable item ∧ is_Some (item !! "summary")) →
  i + count ≤ length (news_items s) →
  show_items i count s = (Ok (), s).
Proof.
  induction count as [|count IH]; intros i s Hquiet Hready Hlen; [done|].
  destruct (lookup_lt_is_Some_2 (news_items s) i) as [item Hi]; [lia|].
  destruct (Hready i item) as [Hshow Hsum]; [lia|done|].
  simpl. unfold mbind, io_bind. fold show_item.
  rewrite (show_item_noop i s item (Hquiet i) Hi Hshow Hsum).
  fold show_items. apply IH; [done| |lia].
  intros j it Hj. apply Hready. lia.
Qed.


(** X17.  A summary is computed once: after a run as in X16, a second run
    without a press of a button makes no call to the summarizer and
    changes nothing in the session. *)
Theorem show_news_twice s s' :
  (∀ i, pressed i = false) →
  Forall displayable (firstn 10 (news_items s)) →
  show_news s = (Ok (), s') →
  show_news s' = (Ok (), s').
Proof.
  intros Hquiet Hshow. unfold App.show_news. fold show_items.
  destruct (show_items_quiet (min 10 (length (news_items s))) 0 s Hquiet)
    as (s1 & Hrun & _ & Hlen & Hitems).
  { intros j item Hj Hitem. rewrite Forall_lookup in Hshow.
    apply (Hshow j). rewrite lookup_take_lt; [done|lia]. }
  { lia. }
  rewrite Hrun. intros [= <-].
  apply show_items_noop; [done| |lia].
  intros j item' Hj Hitem'.
  destruct (lookup_lt_is_Some_2 (news_items s) j) as [item Hitem]; [lia|].
  destruct (Hitems j item Hitem) as (item1 & Hitem1 & Hrel).
  rewrite Hitem' in Hitem1. injection Hitem1 as <-.
  rewrite decide_True in Hrel by lia. destruct Hrel as [Hrel _].
  apply (summary_added_displayable item); [|done].
  rewrite Forall_lookup in Hshow. apply (Hshow j).
  rewrite lookup_take_lt; [done|lia].
Qed.

(** *** The play button *)

(** A path returned by [generate_voice_clone] names a file. *)
Lemma generate_voice_clone_file text st path :
  (generate_voice_clone text selected_voice st).1 = Some path →
  ∃ data, fs (generate_voice_clone text selected_voice st).2 !! path
          = Some (File data).
Proof.
  unfold VoiceGenerator.generate_voice_clone, io_try_return.
  destruct (synthesis text selected_voice st) as [[r|e] st1] eqn:Hbody.
  - apply VoiceGeneratorFacts.synthesis_Ok in Hbody
      as (p & data & -> & Hfile & _).
    simpl. intros [= <-]. by exists data.
  - destruct (VoiceGeneratorFacts.placeholder_on_error_outcome
                gettempdir TMP_MAX mkstemp_draw st1) as [Hnone|(p & Hp & Hfile)].
    + by rewrite Hnone.
    + rewrite Hp. intros [= <-]. by exists "".
Qed.

(** The test of line 111 never raises and leaves the session as it is. *)
Lemma audio_ready_value audio_file s :
  audio_ready audio_file s
  = (Ok match audio_file with
        | Some path =>
            truthy path
            && match fs (disk s) !! path with
               | Some (File data) => (0 <? len data)%Z
               | Some Dir => (0 <? dir_size path)%Z
               | None => false
               end
        | None => false
        end, s).
Proof.
  destruct s as [items m d pg]. unfold App.audio_ready.
  destruct audio_file as [path|]; simpl; [|done].
  destruct (truthy path); simpl; [|done].
  unfold mbind, io_bind, on_disk, exists_, getsize, path_exists. simpl.
  destruct (fs d !! path) as [[data|]|] eqn:Hpath.
  - rewrite bool_decide_eq_true_2 by by eexists. simpl. by rewrite Hpath.
  - rewrite bool_decide_eq_true_2 by by eexists. simpl. by rewrite Hpath.
  - rewrite bool_decide_eq_false_2; [done|]. by intros [? ?].
Qed.

(** What a press does once the summary of the item was read. *)
Lemma audio_step_summary i s item text :
  news_items s !! i = Some item → item !! "summary" = Some text →
  audio_step i s
  = let out := generate_voice_clone text selected_voice (disk s) in
    let s1 := {| news_items := news_items s; model := model s;
                 disk := out.2; page := page s |} in
    (Ok (),
     {| news_items := news_items s; model := model s; disk := out.2;
        page := page s
                ++ [if (audio_ready out.1 s1).1 is Ok true
                    then Audio (default "" out.1)
                    else ErrorMessage generation_failed] |}).
Proof.
  intros Hi Hsum. unfold App.audio_step, io_try, mbind, io_bind.
  rewrite (field_present i "summary" s item text Hi Hsum).
  unfold App.generate. fold generate_voice_clone.
  destruct (generate_voice_clone text selected_voice (disk s))
    as [audio_file d]. simpl.
  fold audio_ready. rewrite audio_ready_value. simpl.
  by destruct (match audio_file with Some _ => _ | None => _ end).
Qed.

(** X18.  A press of a play button adds exactly one entry to the page, and
    leaves the items and the summarizer as they are.  Audio is shown only
    for a path that names a file that exists and has more than 0 bytes;
    in every other case, a missing item or summary included, an error
    message is shown. *)
Theorem audio_step_shows_one i s :
  ∃ what,
    (audio_step i s).1 = Ok ()
    ∧ page (audio_step i s).2 = page s ++ [what]
    ∧ news_items (audio_step i s).2 = news_items s
    ∧ model (audio_step i s).2 = model s
    ∧ ∀ path, what = Audio path →
        ∃ data, fs (disk (audio_step i s).2) !! path = Some (File data)
                ∧ (0 < len data)%Z.
Proof.
  destruct (news_items s !! i) as [item|] eqn:Hi.
  2: { eexists. unfold App.audio_step, io_try, mbind, io_bind, field, mbind,
         io_bind, item_at. rewrite Hi. simpl. by split_and!. }
  destruct (item !! "summary") as [text|] eqn:Hsum.
  2: { eexists. unfold App.audio_step, io_try, mbind, io_bind, field, mbind,
         io_bind, item_at, lift, getitem. rewrite Hi, Hsum. simpl.
       by split_and!. }
  rewrite (audio_step_summary i s item text Hi Hsum).
  pose proof (generate_voice_clone_file text (disk s)) as Hfile.
  destruct (generate_voice_clone text selected_voice (disk s))
    as [audio_file d]. simpl in *.
  eexists. split_and!; [done..|].
  intros path. rewrite audio_ready_value. simpl.
  destruct audio_file as [p|]; [|done].
  destruct (Hfile p eq_refl) as [data Hdata]. rewrite Hdata.
  destruct (truthy p); simpl; [|done].
  destruct (0 <? len data)%Z eqn:Hsize; [|done].
  intros [= <-]. exists data. split; [done|]. by apply Z.ltb_lt.
Qed.

(** X19.  When an exception is raised during synthesis, the placeholder
    that [generate_voice_clone] returns is not played: the press shows the
    message that the audio could not be generated. *)
Theorem failed_synthesis_shows_error i s item text e :
  news_items s !! i = Some item → item !! "summary" = Some text →
  (synthesis text selected_voice (disk s)).1 = Raise e →
  page (audio_step i s).2 = page s ++ [ErrorMessage generation_failed].
Proof.
  intros Hi Hsum Hraise. rewrite (audio_step_summary i s item text Hi Hsum).
  simpl. rewrite audio_ready_value. simpl.
  unfold VoiceGenerator.generate_voice_clone, io_try_return.
  destruct (synthesis text selected_voice (disk s)) as [[r|e'] st1];
    simpl in Hraise; [done|].
  destruct (VoiceGeneratorFacts.placeholder_on_error_outcome
              gettempdir TMP_MAX mkstemp_draw st1) as [Hnone|(p & Hp & Hfile)].
  - by rewrite Hnone.
  - rewrite Hp, Hfile. by rewrite andb_false_r.
Qed.

(** X20.  When the [TTS] package is missing and the placeholder can be
    written, the test of the script passes: the file shown as audio is the
    placeholder that holds the text of the message. *)
Theorem missing_package_plays_message i s item text r :
  news_items s !! i = Some item → item !! "summary" = Some text →
  load_tts_model import_TTS = false →
  mkstemp_draw (drawn (disk s)) = Some r →
  fs (disk s) !! temp_path r ".wav" = None →
  write_permitted (temp_path r ".wav") = true →
  page (audio_step i s).2
  = page s ++ [Audio (temp_path r ".wav")]
  ∧ fs (disk (audio_step i s).2) !! temp_path r ".wav"
    = Some (File unavailable_message).
Proof.
  intros Hi Hsum Hmissing Hdraw Hfree Hwrite.
  rewrite (audio_step_summary i s item text Hi Hsum).
  simpl. rewrite audio_ready_value. simpl.
  unfold VoiceGenerator.generate_voice_clone, io_try_return.
  destruct (VoiceGeneratorFacts.synthesis_unavailable mkdir_permitted
              write_permitted dir_size gettempdir TMP_MAX mkstemp_draw import_TTS coqui_api_key
              cuda_is_available TTS AUDIO_PROCESSING_AVAILABLE normalize
              text selected_voice (disk s) r Hmissing Hdraw Hfree Hwrite)
    as [st1 Hbody].
  fold synthesis in Hbody. rewrite Hbody. simpl.
  apply VoiceGeneratorFacts.synthesis_Ok in Hbody
    as (p & data & [= <-] & Hfile & Hmsg).
  rewrite Hfile, (Hmsg Hmissing), VoiceGeneratorFacts.temp_path_truthy.
  by split.
Qed.

End WithServices.

End AppFacts.

Module AppCases.

Import VoiceGenerator App AppFacts MoreSpec Scenario MoreScenario.

Lemma new_session_displayable : Forall displayable (firstn 10 [fetched_item]).
Proof. repeat constructor; by eexists. Qed.


(** A run with the model hub in reach: the description has 41 words, so the
    model is loaded, which leaves its weights on disk, and the summary the
    model returns is stored. *)
Lemma online_run_summarizes :
  SummarizerSpec.word_count long_read = 41%Z
  ∧ (λ item : gmap string string, item !! "summary")
      <$> news_items (run_script_online reading_session).2
    = [Some "A summary."]
  ∧ Summarizer.trace (model (run_script_online reading_session).2)
    = MoreSpec.load_events ++ MoreSpec.run_events
  ∧ fs (disk (run_script_online reading_session).2)
    = {[ "/home/user/.cache/huggingface/hub/models--Falconsai--text_summarization"
         := File "weights" ]}.
Proof. split_and!; by vm_compute. Qed.


Lemma show_news_twice_witness :
  (∀ i, no_press i = false)
  ∧ Forall displayable (firstn 10 (news_items new_session))
  ∧ run_script new_session = (Ok (), (run_script new_session).2)
  ∧ run_script (run_script new_session).2
    = (Ok (), (run_script new_session).2).
Proof.
  split; [done|]. split; [apply new_session_displayable|].
  split; [by vm_compute|].
  apply (show_news_twice None hub_down unit hub_down
           (λ _ _ _, Ok some_pipeline) no_cache permitted permitted
           block_size tmp_dir tmp_max draw
           not_installed None false model_missing false (λ s, Ok s)
           "Morgan Freeman" no_press new_session).
  - done.
  - apply new_session_displayable.
  - by vm_compute.
Defined.

Lemma failed_synthesis_shows_error_witness :
  news_items narrated_session !! 0 = Some narrated_item
  ∧ narrated_item !! "summary" = Some "A summary."
  ∧ (synthesis permitted permitted block_size tmp_dir tmp_max draw (Ok ()) None false
       model_missing false (λ s, Ok s) "A summary." "Morgan Freeman"
       (disk narrated_session)).1 = Raise "RuntimeError"
  ∧ page (press_with_model_error narrated_session).2
    = page narrated_session ++ [ErrorMessage generation_failed].
Proof.
  do 3 (split; [reflexivity|]).
  apply (failed_synthesis_shows_error permitted permitted block_size tmp_dir tmp_max draw
           (Ok ()) None false model_missing false (λ s, Ok s)
           "Morgan Freeman" 0 narrated_session narrated_item "A summary."
           "RuntimeError"); reflexivity.
Defined.

Lemma missing_package_plays_message_witness :
  news_items narrated_session !! 0 = Some narrated_item
  ∧ narrated_item !! "summary" = Some "A summary."
  ∧ load_tts_model not_installed = false
  ∧ draw (drawn (disk narrated_session)) = Some "k3x9q2"
  ∧ fs (disk narrated_session) !! (VoiceGenerator.temp_path tmp_dir "k3x9q2" ".wav") = None
  ∧ permitted (VoiceGenerator.temp_path tmp_dir "k3x9q2" ".wav") = true
  ∧ page (press_without_package narrated_session).2
    = page narrated_session ++ [Audio (VoiceGenerator.temp_path tmp_dir "k3x9q2" ".wav")]
  ∧ fs (disk (press_without_package narrated_session).2)
      !! (VoiceGenerator.temp_path tmp_dir "k3x9q2" ".wav")
    = Some (File unavailable_message).
Proof.
  do 6 (split; [reflexivity|]).
  apply (missing_package_plays_message permitted permitted block_size tmp_dir tmp_max draw
           not_installed None false model_missing false (λ s, Ok s)
           "Morgan Freeman" 0 narrated_session narrated_item "A summary."
           "k3x9q2"); reflexivity.
Defined.

End AppCases.
